(** * Product catalog service: aggregate, value objects, pricing and commit planning

    A shallow embedding of the Go sources of the product catalog service
    (package [domain], its [services] sub-package, [commitplanner], the
    repository contracts, the outbox event repository and the update use
    case), followed by the properties established about them.

    Conventions of the embedding.
    - A Go [string] is a byte string ([String.string]); [len] is [String.length].
    - An [int64] is a [Z]; arithmetic that can leave the range is wrapped
      with [wrap64].
    - A [float64] is a kernel binary64 float ([PrimFloat.float]), whose
      operations round to nearest, ties to even, as Go's do.
    - A nilable pointer [*T] is an [option T].
    - A method with a pointer receiver that mutates it takes the receiver
      as its last argument and returns the receiver after the call.
    - What the Go runtime or a library outside the repository decides
      (the order in which [range] walks a map, [strconv.ParseFloat], the
      value of an out-of-range float-to-integer conversion, generated
      identifiers, JSON encoding, time formatting) is a [Variable] of the
      section that needs it. *)

From Stdlib Require Import ZArith QArith Floats.
From stdpp Require Import base gmap sets list strings.

Local Open Scope string_scope.
Local Open Scope Z_scope.

(** ** Machine integers *)

Definition int64_min : Z := - 2 ^ 63.
Definition int64_max : Z := 2 ^ 63 - 1.

(** Two's complement wrap-around of a 64-bit signed integer. *)
Definition wrap64 (z : Z) : Z := (z + 2 ^ 63) mod 2 ^ 64 - 2 ^ 63.

Definition in_int64 (z : Z) : bool := (int64_min <=? z) && (z <=? int64_max).

(** ** Package [time]: an instant is its position on the time line *)

Module time.

Definition Time : Type := Z.

Definition Before (t u : Time) : bool := t <? u.
Definition After (t u : Time) : bool := u <? t.

End time.

(** ** Package [math] and the float conversions of the language *)

Module math.

(** [float64(n)] for an [int64] [n]: nearest float, ties to even. *)
Definition float64_of_int64 (n : Z) : float :=
  if 0 <=? n then PrimFloat.of_uint63 (Uint63.of_Z n)
  else if n =? int64_min then PrimFloat.opp (Z.ldexp PrimFloat.one 63)
  else PrimFloat.opp (PrimFloat.of_uint63 (Uint63.of_Z (- n))).

(** [math.Round]: nearest integer, halfway cases away from zero; zeros,
    infinities and NaN are returned as they are.  A finite float is
    [m * 2^e] with [m < 2^53]: when [e < 0] the rounded magnitude is at
    most [2^52] and is therefore converted back exactly. *)
Definition Round (x : float) : float :=
  match Prim2SF x with
  | S754_finite s m e =>
      if 0 <=? e then x
      else
        let d := 2 ^ (- e) in
        let q := Z.pos m / d in
        let r := Z.pos m mod d in
        let n := if d <=? 2 * r then q + 1 else q in
        let y := PrimFloat.of_uint63 (Uint63.of_Z n) in
        if s then PrimFloat.opp y else y
  | _ => x
  end.

(** The integer a float denotes after truncation toward zero; [None] for
    NaN and the infinities. *)
Definition trunc (x : float) : option Z :=
  match Prim2SF x with
  | S754_zero _ => Some 0
  | S754_finite s m e =>
      let v := if 0 <=? e then Z.pos m * 2 ^ e else Z.pos m / 2 ^ (- e) in
      Some (if s then - v else v)
  | S754_infinity _ | S754_nan => None
  end.

Section Conversion.

(** The language leaves the result of converting a float that [int64]
    cannot represent to the implementation. *)
Variable int64_unrepresentable : float → Z.

(** [int64(x)] for a [float64] [x]. *)
Definition int64_of_float64 (x : float) : Z :=
  match trunc x with
  | Some v => if in_int64 v then v else int64_unrepresentable x
  | None => int64_unrepresentable x
  end.

End Conversion.

End math.

(** ** Package [domain] *)

Module domain.

(** *** Errors

    The sentinel errors of the package, an error made by [errors.New] (or
    by [fmt.Errorf] without [%w]) elsewhere, and an error that wraps
    another one ([fmt.Errorf] with [%w]), carrying its full text. *)
Inductive error : Type :=
  | ErrDiscountInvalidPercentage
  | ErrDiscountInvalidPeriod
  | ErrProductNotActive
  | ErrProductNotFound
  | ErrProductIDRequired
  | ErrProductNameRequired
  | ErrProductBasePriceRequired
  | ErrInvalidDiscountPeriod
  | ErrNoActiveDiscount
  | ErrInvalidStatus
  | ErrNegativeAmount
  | ErrCurrencyMismatch
  | ErrInvalidCurrency
  | ErrDivisionByZero
  | ErrInvalidDiscountAmount
  | errors_New (text : string)
  | fmt_Errorf_w (text : string) (wrapped : error).

#[global] Instance error_eq_dec : EqDecision error.
Proof. solve_decision. Defined.

(** The [Error()] text of an error value. *)
Definition error_text (e : error) : string :=
  match e with
  | ErrDiscountInvalidPercentage => "discount percentage must be between 0 and 100"
  | ErrDiscountInvalidPeriod => "discount end date must be after start date"
  | ErrProductNotActive => "product is not active"
  | ErrProductNotFound => "product not found"
  | ErrProductIDRequired => "product id is required"
  | ErrProductNameRequired => "product name is required"
  | ErrProductBasePriceRequired => "product base price is required"
  | ErrInvalidDiscountPeriod => "invalid discount period"
  | ErrNoActiveDiscount => "product has no active discount"
  | ErrInvalidStatus => "invalid product status"
  | ErrNegativeAmount => "money amount cannot be negative"
  | ErrCurrencyMismatch => "currency mismatch"
  | ErrInvalidCurrency => "invalid currency code"
  | ErrDivisionByZero => "division by zero"
  | ErrInvalidDiscountAmount => "discount amount must be between 0 and 100"
  | errors_New text => text
  | fmt_Errorf_w text _ => text
  end.

(** [errors.Is]: the error, or one it wraps, is the target. *)
Fixpoint errors_Is (err target : error) : bool :=
  bool_decide (err = target)
  || match err with
     | fmt_Errorf_w _ wrapped => errors_Is wrapped target
     | _ => false
     end.

(** The outcome of a call that returns [(T, error)]: a value, an error,
    or a run-time panic that unwinds the caller. *)
Inductive result (A : Type) : Type :=
  | Ok (a : A)
  | Err (e : error)
  | Panic (text : string).
Arguments Ok {A} a.
Arguments Err {A} e.
Arguments Panic {A} text.

(** Early return on a failed call: [if err != nil { return nil, err }]. *)
#[global] Instance result_ret : MRet result := λ A a, Ok a.
#[global] Instance result_bind : MBind result := λ A B k r,
  match r with
  | Ok a => k a
  | Err e => Err e
  | Panic text => Panic text
  end.

Definition nil_dereference : string :=
  "runtime error: invalid memory address or nil pointer dereference".

(** *** Money *)

Record Money : Type := { amount : Z; currency : string }.

#[global] Instance Money_eq_dec : EqDecision Money.
Proof. solve_decision. Defined.

Definition NewMoney (amount : Z) (currency : string) : result Money :=
  if amount <? 0 then Err ErrNegativeAmount
  else if negb (Z.of_nat (String.length currency) =? 3) then Err ErrInvalidCurrency
  else Ok {| amount := amount; currency := currency |}.

Definition Money_Equals (m : Money) (other : option Money) : bool :=
  match other with
  | None => false
  | Some o => (amount m =? amount o) && bool_decide (currency m = currency o)
  end.

(** [sameCurrency] guards cross-currency operations; [None] is the [nil]
    error. *)
Definition Money_sameCurrency (m : Money) (other : option Money) : option error :=
  match other with
  | None => Some ErrCurrencyMismatch
  | Some o =>
      if bool_decide (currency m ≠ currency o)
      then Some (fmt_Errorf_w
                   (error_text ErrCurrencyMismatch ++ ": " ++ currency m ++ " vs " ++ currency o)
                   ErrCurrencyMismatch)
      else None
  end.

(** After a passed [sameCurrency] guard the methods read [other.amount];
    on a [nil] operand that read would panic. *)
Definition deref {A : Type} (p : option A) (k : A → result Money) : result Money :=
  match p with
  | Some a => k a
  | None => Panic nil_dereference
  end.

Definition Money_Add (m : Money) (other : option Money) : result Money :=
  match Money_sameCurrency m other with
  | Some err => Err err
  | None =>
      deref other (λ o,
        Ok {| amount := wrap64 (amount m + amount o); currency := currency m |})
  end.

Definition Money_Subtract (m : Money) (other : option Money) : result Money :=
  match Money_sameCurrency m other with
  | Some err => Err err
  | None =>
      deref other (λ o,
        let result := wrap64 (amount m - amount o) in
        if result <? 0 then Err ErrNegativeAmount
        else Ok {| amount := result; currency := currency m |})
  end.

Definition Money_IsGreaterThan (m : Money) (other : option Money) : result bool :=
  match Money_sameCurrency m other with
  | Some err => Err err
  | None =>
      match other with
      | Some o => Ok (amount o <? amount m)
      | None => Panic nil_dereference
      end
  end.

Definition Money_IsLessThan (m : Money) (other : option Money) : result bool :=
  match Money_sameCurrency m other with
  | Some err => Err err
  | None =>
      match other with
      | Some o => Ok (amount m <? amount o)
      | None => Panic nil_dereference
      end
  end.

Definition Money_IsZero (m : Money) : bool := amount m =? 0.

Section MoneyFloat.

Variable int64_unrepresentable : float → Z.

Definition Money_Multiply (m : Money) (factor : float) : result Money :=
  if PrimFloat.ltb factor 0 then Err ErrNegativeAmount
  else
    let result :=
      math.int64_of_float64 int64_unrepresentable
        (math.Round (math.float64_of_int64 (amount m) * factor)%float) in
    Ok {| amount := result; currency := currency m |}.

Definition Money_ApplyPercentageDiscount (m : Money) (percentage : float) : result Money :=
  if PrimFloat.ltb percentage 0 || PrimFloat.ltb 100 percentage
  then Err ErrInvalidDiscountAmount
  else
    let discounted := (math.float64_of_int64 (amount m) * (1 - percentage / 100))%float in
    Ok {| amount := math.int64_of_float64 int64_unrepresentable (math.Round discounted);
          currency := currency m |}.

End MoneyFloat.

(** *** Discount *)

Record Discount : Type := {
  percentage : string; (* kept as text to preserve the exact decimal *)
  startsAt : time.Time;
  endsAt : time.Time
}.

#[global] Instance Discount_eq_dec : EqDecision Discount.
Proof. solve_decision. Defined.

Section DiscountParse.

(** [strconv.ParseFloat(s, 64)]; [None] stands for a non-[nil] error. *)
Variable strconv_ParseFloat : string → option float.

Definition NewDiscount (percentage : string) (startsAt endsAt : time.Time) : result Discount :=
  match strconv_ParseFloat percentage with
  | None => Err ErrDiscountInvalidPercentage
  | Some pct =>
      if PrimFloat.ltb pct 0 || PrimFloat.ltb 100 pct then Err ErrDiscountInvalidPercentage
      else if negb (time.After endsAt startsAt) then Err ErrDiscountInvalidPeriod
      else Ok {| percentage := percentage; startsAt := startsAt; endsAt := endsAt |}
  end.

(** [PercentageFloat64] drops the parse error and keeps the zero value. *)
Definition Discount_PercentageFloat64 (d : Discount) : float :=
  match strconv_ParseFloat (percentage d) with
  | Some pct => pct
  | None => 0%float
  end.

End DiscountParse.

(** [IsValidAt]: [now] lies in the half-open window [[startsAt, endsAt)]. *)
Definition Discount_IsValidAt (d : Discount) (now : time.Time) : bool :=
  negb (time.Before now (startsAt d)) && time.Before now (endsAt d).

Definition Discount_IsExpired (d : Discount) (now : time.Time) : bool :=
  negb (time.Before now (endsAt d)).

Definition Discount_IsUpcoming (d : Discount) (now : time.Time) : bool :=
  time.Before now (startsAt d).

(** *** The change tracker and the fields it marks *)

Definition Field : Type := string.

Definition FieldName : Field := "name".
Definition FieldDiscount : Field := "discount".
Definition FieldDescription : Field := "description".
Definition FieldCategory : Field := "category".
Definition FieldBasePrice : Field := "base_price".
Definition FieldStatus : Field := "status".

(** [Changes] wraps a [map[Field]struct{}], that is a finite set of
    fields; its mutex guards a single-threaded use here. *)
Record Changes : Type := { dirty : gset Field }.

Definition NewChanges : Changes := {| dirty := ∅ |}.

Definition Changes_Dirty (c : Changes) (f : Field) : bool := bool_decide (f ∈ dirty c).

Definition Changes_MarkDirty (f : Field) (c : Changes) : Changes :=
  {| dirty := {[ f ]} ∪ dirty c |}.

Definition Changes_Clear (c : Changes) : Changes := {| dirty := ∅ |}.

(** *** Product status *)

Definition ProductStatus : Type := string.

Definition ProductStatusActive : ProductStatus := "active".
Definition ProductStatusInactive : ProductStatus := "inactive".

(** *** Domain events

    [DomainEvent] is an interface; the package implements it six times.
    [ForeignEvent] stands for an implementation from elsewhere, which is
    what the [default] arm of a type switch receives; it may or may not
    have a [ProductID] method. *)
Inductive DomainEvent : Type :=
  | ProductCreatedEvent (productID name category : string) (basePrice : option Money)
      (status : ProductStatus) (at_ : time.Time)
  | ProductUpdatedEvent (productID : string) (changedFields : list Field) (at_ : time.Time)
  | ProductActivatedEvent (productID : string) (at_ : time.Time)
  | ProductDeactivatedEvent (productID : string) (at_ : time.Time)
  | DiscountAppliedEvent (productID percentage : string) (startsAt endsAt at_ : time.Time)
  | DiscountRemovedEvent (productID : string) (at_ : time.Time)
  | ForeignEvent (typeName eventName : string) (productID : option string) (at_ : time.Time).

Definition NewProductCreatedEvent := ProductCreatedEvent.
Definition NewProductUpdatedEvent := ProductUpdatedEvent.
Definition NewProductActivatedEvent := ProductActivatedEvent.
Definition NewProductDeactivatedEvent := ProductDeactivatedEvent.
Definition NewDiscountAppliedEvent := DiscountAppliedEvent.
Definition NewDiscountRemovedEvent := DiscountRemovedEvent.

Definition EventName (e : DomainEvent) : string :=
  match e with
  | ProductCreatedEvent _ _ _ _ _ _ => "product.created"
  | ProductUpdatedEvent _ _ _ => "product.updated"
  | ProductActivatedEvent _ _ => "product.activated"
  | ProductDeactivatedEvent _ _ => "product.deactivated"
  | DiscountAppliedEvent _ _ _ _ _ => "product.discount_applied"
  | DiscountRemovedEvent _ _ => "product.discount_removed"
  | ForeignEvent _ eventName _ _ => eventName
  end.

Definition OccurredAt (e : DomainEvent) : time.Time :=
  match e with
  | ProductCreatedEvent _ _ _ _ _ at_ => at_
  | ProductUpdatedEvent _ _ at_ => at_
  | ProductActivatedEvent _ at_ => at_
  | ProductDeactivatedEvent _ at_ => at_
  | DiscountAppliedEvent _ _ _ _ at_ => at_
  | DiscountRemovedEvent _ at_ => at_
  | ForeignEvent _ _ _ at_ => at_
  end.

(** The events the package itself defines. *)
Definition is_product_event (e : DomainEvent) : bool :=
  match e with
  | ForeignEvent _ _ _ _ => false
  | _ => true
  end.

(** *** The Product aggregate *)

Record Product : Type := {
  id : string;
  name : string;
  description : string;
  category : string;
  basePrice : option Money;
  discount : option Discount;
  status : ProductStatus;
  changes : Changes;
  events : list DomainEvent
}.

(** Assignments to one field of the receiver. *)
Definition set_name (v : string) (p : Product) : Product :=
  {| id := id p; name := v; description := description p; category := category p;
     basePrice := basePrice p; discount := discount p; status := status p;
     changes := changes p; events := events p |}.

Definition set_description (v : string) (p : Product) : Product :=
  {| id := id p; name := name p; description := v; category := category p;
     basePrice := basePrice p; discount := discount p; status := status p;
     changes := changes p; events := events p |}.

Definition set_category (v : string) (p : Product) : Product :=
  {| id := id p; name := name p; description := description p; category := v;
     basePrice := basePrice p; discount := discount p; status := status p;
     changes := changes p; events := events p |}.

Definition set_basePrice (v : option Money) (p : Product) : Product :=
  {| id := id p; name := name p; description := description p; category := category p;
     basePrice := v; discount := discount p; status := status p;
     changes := changes p; events := events p |}.

Definition set_discount (v : option Discount) (p : Product) : Product :=
  {| id := id p; name := name p; description := description p; category := category p;
     basePrice := basePrice p; discount := v; status := status p;
     changes := changes p; events := events p |}.

Definition set_status (v : ProductStatus) (p : Product) : Product :=
  {| id := id p; name := name p; description := description p; category := category p;
     basePrice := basePrice p; discount := discount p; status := v;
     changes := changes p; events := events p |}.

Definition set_events (v : list DomainEvent) (p : Product) : Product :=
  {| id := id p; name := name p; description := description p; category := category p;
     basePrice := basePrice p; discount := discount p; status := status p;
     changes := changes p; events := v |}.

(** [p.changes.MarkDirty(f)]. *)
Definition mark_dirty (f : Field) (p : Product) : Product :=
  {| id := id p; name := name p; description := description p; category := category p;
     basePrice := basePrice p; discount := discount p; status := status p;
     changes := Changes_MarkDirty f (changes p); events := events p |}.

(** [p.events = append(p.events, e)]. *)
Definition append_event (e : DomainEvent) (p : Product) : Product :=
  set_events (events p ++ [e]) p.

(** [NewProduct]; [uuid] is the identifier [uuid.NewString()] draws. *)
Definition NewProduct (uuid : string) (name description category : string)
    (basePrice : option Money) (now : time.Time) : result Product :=
  if bool_decide (name = "") then Err ErrProductNameRequired
  else
    match basePrice with
    | None => Err ErrProductBasePriceRequired
    | Some _ =>
        let id := uuid in
        let p := {| id := id; name := name; description := description;
                    category := category; basePrice := basePrice; discount := None;
                    status := ProductStatusActive; changes := NewChanges; events := [] |} in
        Ok (append_event
              (NewProductCreatedEvent id name category basePrice ProductStatusActive now) p)
    end.

(** [Reconstitute] rebuilds a Product from persisted state; no event. *)
Definition Reconstitute (id name description category : string)
    (basePrice : option Money) (discount : option Discount)
    (status : ProductStatus) : result Product :=
  if bool_decide (id = "") then Err ErrProductIDRequired
  else if bool_decide (name = "") then Err ErrProductNameRequired
  else if bool_decide (status ≠ ProductStatusActive)
          && bool_decide (status ≠ ProductStatusInactive)
  then Err ErrInvalidStatus
  else Ok {| id := id; name := name; description := description; category := category;
             basePrice := basePrice; discount := discount; status := status;
             changes := NewChanges; events := [] |}.

Definition Product_IsActive (p : Product) : bool :=
  bool_decide (status p = ProductStatusActive).

Definition Product_ClearEvents (p : Product) : Product := set_events [] p.

(** The business methods return the error (or [None] for [nil]) and the
    receiver as the call leaves it. *)

Definition Product_SetName (name : string) (p : Product) : option error * Product :=
  if bool_decide (name = "") then (Some ErrProductNameRequired, p)
  else if bool_decide (domain.name p = name) then (None, p)
  else (None, mark_dirty FieldName (set_name name p)).

Definition Product_SetDescription (description : string) (p : Product) : Product :=
  if bool_decide (domain.description p = description) then p
  else mark_dirty FieldDescription (set_description description p).

Definition Product_SetCategory (category : string) (p : Product) : Product :=
  if bool_decide (domain.category p = category) then p
  else mark_dirty FieldCategory (set_category category p).

Definition Product_SetBasePrice (price : option Money) (p : Product) : option error * Product :=
  match price with
  | None => (Some ErrProductBasePriceRequired, p)
  | Some _ => (None, mark_dirty FieldBasePrice (set_basePrice price p))
  end.

Definition Product_Activate (now : time.Time) (p : Product) : option error * Product :=
  if bool_decide (status p = ProductStatusActive) then (None, p)
  else
    let p := set_status ProductStatusActive p in
    let p := mark_dirty FieldStatus p in
    let p := append_event (NewProductActivatedEvent (id p) now) p in
    (None, p).

Definition Product_Deactivate (now : time.Time) (p : Product) : option error * Product :=
  if bool_decide (status p = ProductStatusInactive) then (None, p)
  else
    let p := set_status ProductStatusInactive p in
    let p := mark_dirty FieldStatus p in
    let p :=
      match discount p with
      | Some _ =>
          let p := append_event (NewDiscountRemovedEvent (id p) now) p in
          let p := set_discount None p in
          mark_dirty FieldDiscount p
      | None => p
      end in
    let p := append_event (NewProductDeactivatedEvent (id p) now) p in
    (None, p).

Definition Product_ApplyDiscount (discount : option Discount) (now : time.Time)
    (p : Product) : option error * Product :=
  if bool_decide (status p ≠ ProductStatusActive) then (Some ErrProductNotActive, p)
  else
    match discount with
    | None => (Some (errors_New "discount must not be nil"), p)
    | Some d =>
        if negb (Discount_IsValidAt d now) then (Some ErrInvalidDiscountPeriod, p)
        else
          let p := set_discount discount p in
          let p := mark_dirty FieldDiscount p in
          let p := append_event
                     (NewDiscountAppliedEvent (id p) (percentage d) (startsAt d) (endsAt d) now)
                     p in
          (None, p)
    end.

Definition Product_RemoveDiscount (now : time.Time) (p : Product) : option error * Product :=
  match discount p with
  | None => (Some ErrNoActiveDiscount, p)
  | Some _ =>
      let p := set_discount None p in
      let p := mark_dirty FieldDiscount p in
      let p := append_event (NewDiscountRemovedEvent (id p) now) p in
      (None, p)
  end.

Section RecordUpdate.

(** The order in which a [range] loop visits the keys of a map is chosen
    by the runtime; every key is visited once. *)
Variable map_range : gset Field → list Field.

Definition Product_RecordUpdate (now : time.Time) (p : Product) : Product :=
  let dirty := foldl (λ dirty f, (dirty ++ [f])%list) [] (map_range (dirty (changes p))) in
  if Nat.eqb (length dirty) 0 then p
  else append_event (NewProductUpdatedEvent (id p) dirty now) p.

End RecordUpdate.

End domain.

(** ** Package [services]: the pricing calculator *)

Module services.
Import domain.

Section PricingCalculator.

Variable strconv_ParseFloat : string → option float.
Variable int64_unrepresentable : float → Z.

(** [EffectivePrice]: the price a customer pays at [now]. *)
Definition EffectivePrice (basePrice : option Money) (discount : option Discount)
    (now : time.Time) : result Money :=
  match basePrice with
  | None => Err ErrProductBasePriceRequired
  | Some base =>
      match discount with
      | None => Ok base
      | Some d =>
          if negb (Discount_IsValidAt d now) then Ok base
          else
            match strconv_ParseFloat (percentage d) with
            | None => Err ErrDiscountInvalidPercentage
            | Some pct => Money_ApplyPercentageDiscount int64_unrepresentable base pct
            end
      end
  end.

(** [DiscountAmount]: the absolute amount saved at [now]. *)
Definition DiscountAmount (basePrice : option Money) (discount : option Discount)
    (now : time.Time) : result Money :=
  match basePrice with
  | None => Err ErrProductBasePriceRequired
  | Some base =>
      zero ← NewMoney 0 (currency base);
      match discount with
      | None => Ok zero
      | Some d =>
          if negb (Discount_IsValidAt d now) then Ok zero
          else
            effective ← EffectivePrice basePrice discount now;
            Money_Subtract base (Some effective)
      end
  end.

End PricingCalculator.

Definition IsDiscounted (discount : option Discount) (now : time.Time) : bool :=
  match discount with
  | None => false
  | Some d => Discount_IsValidAt d now
  end.

End services.

(** ** The Spanner client library, as far as the repositories use it *)

Module spanner.

Inductive Value : Type :=
  | Text (s : string)
  | CommitTimestamp.

Inductive Op : Type := OpInsert | OpUpdate.

(** A mutation names its operation, its table and the columns it writes. *)
Record Mutation : Type := { op : Op; table : string; values : gmap string Value }.

Definition InsertMap (table : string) (row : gmap string Value) : Mutation :=
  {| op := OpInsert; table := table; values := row |}.

End spanner.

(** ** Package [commitplanner] *)

Module commitplanner.

(** The callers add a mutation only after testing it against [nil], so
    the slice holds mutations proper. *)
Record Plan : Type := { muts : list spanner.Mutation }.

Definition NewPlan : Plan := {| muts := [] |}.

Definition Plan_Add (mut : spanner.Mutation) (p : Plan) : Plan :=
  {| muts := muts p ++ [mut] |}.

(** [Applier]: the interface the use cases commit through.  [W] is the
    state of everything outside the use case (storage, generators,
    recorders of test doubles). *)
Record Applier (W : Type) : Type := {
  Apply : Plan → W → option domain.error * W
}.
Arguments Apply {W} _ _ _.

End commitplanner.

(** ** Package [common]: the clock *)

Module common.

Record Ticker (W : Type) : Type := { Now : W → time.Time * W }.
Arguments Now {W} _ _.

End common.

(** ** Package [contract]: the repository ports *)

Module contract.

Record ProductRepository (W : Type) : Type := {
  GetByID : string → W → domain.result domain.Product * W;
  InsertMut : domain.Product → W → option spanner.Mutation * W;
  UpdateMut : domain.Product → W → option spanner.Mutation * W
}.
Arguments GetByID {W} _ _ _.
Arguments InsertMut {W} _ _ _.
Arguments UpdateMut {W} _ _ _.

Record EventRepository (W : Type) : Type := {
  Event_InsertMut : domain.DomainEvent → W → option spanner.Mutation * W
}.
Arguments Event_InsertMut {W} _ _ _.

End contract.

(** ** Package [m_outbox]: the outbox table *)

Module m_outbox.

(** The constants of package [m_outbox] that the event repository uses:
    the [outbox_events] table, its columns, and the status a new row
    carries. *)
Definition Table : string := "outbox_events".
Definition EventID : string := "event_id".
Definition EventType : string := "event_type".
Definition AggregateID : string := "aggregate_id".
Definition Payload : string := "payload".
Definition Status : string := "status".
Definition CreatedAt : string := "created_at".
Definition StatusPending : string := "pending".

End m_outbox.

(** ** Package [repo]: the outbox event repository *)

Module repo.
Import domain.

(** The anonymous struct handed to [json.Marshal]: its JSON keys in
    order, each with a string or a list of strings. *)
Inductive payload_field : Type :=
  | JString (s : string)
  | JStrings (l : list string).

Definition payload_struct : Type := list (string * payload_field).

Section EventRepo.

Variable W : Type.
(** [json.Marshal], [time.Time.Format] with the RFC 3339 layout, and
    [uuid.NewString], which draws from the outside state. *)
Variable json_Marshal : payload_struct → result string.
Variable time_Format_RFC3339 : time.Time → string.
Variable uuid_NewString : W → string * W.

(** [aggregateIDOf]: the product id of an event that has one. *)
Definition aggregateIDOf (event : DomainEvent) : string :=
  match event with
  | ProductCreatedEvent productID _ _ _ _ _ => productID
  | ProductUpdatedEvent productID _ _ => productID
  | ProductActivatedEvent productID _ => productID
  | ProductDeactivatedEvent productID _ => productID
  | DiscountAppliedEvent productID _ _ _ _ => productID
  | DiscountRemovedEvent productID _ => productID
  | ForeignEvent _ _ (Some productID) _ => productID
  | ForeignEvent _ _ None _ => ""
  end.

(** [marshalPayload]: one arm per event type, then [json.Marshal]. *)
Definition marshalPayload (event : DomainEvent) : result string :=
  data ←
    match event with
    | ProductCreatedEvent productID name category _ status _ =>
        Ok [("product_id", JString productID); ("name", JString name);
            ("category", JString category); ("status", JString status)]
    | ProductUpdatedEvent productID changedFields _ =>
        let fields := foldl (λ fields f, (fields ++ [f])%list) [] changedFields in
        Ok [("product_id", JString productID); ("changed_fields", JStrings fields)]
    | ProductActivatedEvent productID _ =>
        Ok [("product_id", JString productID)]
    | ProductDeactivatedEvent productID _ =>
        Ok [("product_id", JString productID)]
    | DiscountAppliedEvent productID percentage startsAt endsAt _ =>
        Ok [("product_id", JString productID); ("percentage", JString percentage);
            ("starts_at", JString (time_Format_RFC3339 startsAt));
            ("ends_at", JString (time_Format_RFC3339 endsAt))]
    | DiscountRemovedEvent productID _ =>
        Ok [("product_id", JString productID)]
    | ForeignEvent typeName _ _ _ =>
        Err (errors_New ("unknown event type: " ++ typeName))
    end;
  json_Marshal data.

(** [EventRepo.InsertMut]: the INSERT of one outbox row, or [None]
    ([nil]) when the payload cannot be serialised. *)
Definition EventRepo_InsertMut (event : DomainEvent) (w : W) : option spanner.Mutation * W :=
  let aggregateID := aggregateIDOf event in
  match marshalPayload event with
  | Ok payload =>
      let '(event_id, w) := uuid_NewString w in
      let row : gmap string spanner.Value :=
        {[ m_outbox.EventID := spanner.Text event_id;
           m_outbox.EventType := spanner.Text (EventName event);
           m_outbox.AggregateID := spanner.Text aggregateID;
           m_outbox.Payload := spanner.Text payload;
           m_outbox.Status := spanner.Text m_outbox.StatusPending;
           m_outbox.CreatedAt := spanner.CommitTimestamp ]} in
      (Some (spanner.InsertMap m_outbox.Table row), w)
  | _ => (None, w)
  end.

Definition NewEventRepo : contract.EventRepository W :=
  {| contract.Event_InsertMut := EventRepo_InsertMut |}.

End EventRepo.

End repo.

(** ** Package [updateproduct]: the update use case *)

Module updateproduct.
Import domain.

Record UpdateProductRequest : Type := {
  ProductID : string;
  Name : option string;
  Description : option string;
  Category : option string
}.

Section Interactor.

Variable W : Type.
Variable map_range : gset Field → list Field.

Record UpdateProductInteractor : Type := {
  committer : commitplanner.Applier W;
  repo : contract.ProductRepository W;
  eventRepo : contract.EventRepository W;
  ticker : common.Ticker W
}.

(** The loop over [product.Events()]: a descriptor that is not [nil] is
    added to the plan. *)
Definition add_event_muts (it : UpdateProductInteractor) (events : list DomainEvent)
    (plan : commitplanner.Plan) (w : W) : commitplanner.Plan * W :=
  foldl (λ '(plan, w) event,
           let '(mut, w) := contract.Event_InsertMut (eventRepo it) event w in
           match mut with
           | Some mut => (commitplanner.Plan_Add mut plan, w)
           | None => (plan, w)
           end)
        (plan, w) events.

(** [Execute] up to its last statement: load, mutate, record the update
    and build the plan.  The result is the error returned early, or the
    aggregate as mutated and the plan built for it. *)
Definition Execute_plan (it : UpdateProductInteractor) (req : UpdateProductRequest) (w : W)
    : result (Product * commitplanner.Plan) * W :=
  let '(loaded, w) := contract.GetByID (repo it) (ProductID req) w in
  match loaded with
  | Err err => (Err err, w)
  | Panic text => (Panic text, w)
  | Ok product =>
      let '(err, product) :=
        match Name req with
        | Some name => Product_SetName name product
        | None => (None, product)
        end in
      match err with
      | Some err => (Err err, w)
      | None =>
          let product :=
            match Description req with
            | Some description => Product_SetDescription description product
            | None => product
            end in
          let product :=
            match Category req with
            | Some category => Product_SetCategory category product
            | None => product
            end in
          let '(now, w) := common.Now (ticker it) w in
          let product := Product_RecordUpdate map_range now product in
          let plan := commitplanner.NewPlan in
          let '(mut, w) := contract.UpdateMut (repo it) product w in
          let plan :=
            match mut with
            | Some mut => commitplanner.Plan_Add mut plan
            | None => plan
            end in
          let '(plan, w) := add_event_muts it (events product) plan w in
          (Ok (product, plan), w)
      end
  end.

(** [Execute]: the plan, once built, is handed to the applier, whose
    error is the result. *)
Definition Execute (it : UpdateProductInteractor) (req : UpdateProductRequest) (w : W)
    : result unit * W :=
  match Execute_plan it req w with
  | (Ok (_, plan), w) =>
      match commitplanner.Apply (committer it) plan w with
      | (Some err, w) => (Err err, w)
      | (None, w) => (Ok (), w)
      end
  | (Err err, w) => (Err err, w)
  | (Panic text, w) => (Panic text, w)
  end.

End Interactor.

Arguments committer {W} _.
Arguments repo {W} _.
Arguments eventRepo {W} _.
Arguments ticker {W} _.

End updateproduct.

(** ** Instances of what the runtime decides *)

Module runtime.

(** A [range] order: the keys in the order [elements] lists them. *)
Definition range_elements (s : gset domain.Field) : list domain.Field := elements s.

(** The value of a digit character. *)
Definition digit_value (c : Ascii.ascii) : option Z :=
  let n := Z.of_N (Ascii.N_of_ascii c) in
  if (48 <=? n) && (n <=? 57) then Some (n - 48) else None.

(** Reads an unsigned decimal literal [ddd] or [ddd.ddd]: its digits as
    an integer and the number of digits after the point ([frac] is
    [None] before the point); [seen] records that a digit has been read. *)
Fixpoint read_decimal (s : string) (mant : Z) (frac : option nat) (seen : bool)
    : option (Z * nat) :=
  match s with
  | EmptyString => if seen then Some (mant, default 0%nat frac) else None
  | String c rest =>
      if Z.of_N (Ascii.N_of_ascii c) =? 46 (* the point *) then
        match frac with
        | None => read_decimal rest mant (Some 0%nat) seen
        | Some _ => None
        end
      else
        match digit_value c with
        | Some d => read_decimal rest (mant * 10 + d) (S <$> frac) true
        | None => None
        end
  end.

(** [strconv.ParseFloat] on unsigned decimal literals whose digits stay
    below [2^53] with at most 22 of them after the point: both the
    digits and the power of ten are floats exactly, so their rounded
    quotient is the float nearest to the literal, which is what
    [ParseFloat] returns.  Every other text is refused, so this instance
    is used at such literals only. *)
Definition ParseFloat_decimal (s : string) : option float :=
  match read_decimal s 0 None false with
  | Some (mant, frac) =>
      if (mant <? 2 ^ 53) && (Z.of_nat frac <=? 22)
      then Some (PrimFloat.of_uint63 (Uint63.of_Z mant)
                 / PrimFloat.of_uint63 (Uint63.of_Z (10 ^ Z.of_nat frac)))%float
      else None
  | None => None
  end.

(** The x86-64 conversion instruction yields the smallest [int64] for a
    float that [int64] cannot represent. *)
Definition int64_indefinite (x : float) : Z := int64_min.

End runtime.

(** ** The test doubles of package [integration_test] *)

Module integration_test.
Import domain.

(** What the doubles keep: the product store, the events recorded, and
    the committer's flag and preset error. *)
Record World : Type := {
  store : gmap string Product;
  recorded : list DomainEvent;
  applied : bool;
  committer_err : option error;
  clock : time.Time
}.

Definition set_store (v : gmap string Product) (w : World) : World :=
  {| store := v; recorded := recorded w; applied := applied w;
     committer_err := committer_err w; clock := clock w |}.

Definition set_recorded (v : list DomainEvent) (w : World) : World :=
  {| store := store w; recorded := v; applied := applied w;
     committer_err := committer_err w; clock := clock w |}.

Definition set_applied (v : bool) (w : World) : World :=
  {| store := store w; recorded := recorded w; applied := v;
     committer_err := committer_err w; clock := clock w |}.

Definition fixedTicker : common.Ticker World :=
  {| common.Now := λ w, (clock w, w) |}.

Definition mockCommitter : commitplanner.Applier World :=
  {| commitplanner.Apply := λ _ w,
       match committer_err w with
       | Some err => (Some err, w)
       | None => (None, set_applied true w)
       end |}.

Definition inMemoryProductRepo : contract.ProductRepository World :=
  {| contract.GetByID := λ id w,
       match store w !! id with
       | None => (Err ErrProductNotFound, w)
       | Some p => (Ok p, w)
       end;
     contract.InsertMut := λ p w, (None, set_store (<[domain.id p := p]> (store w)) w);
     contract.UpdateMut := λ p w, (None, set_store (<[domain.id p := p]> (store w)) w) |}.

Definition inMemoryEventRepo : contract.EventRepository World :=
  {| contract.Event_InsertMut := λ event w,
       (None, set_recorded (recorded w ++ [event]) w) |}.

Definition interactor : updateproduct.UpdateProductInteractor World :=
  {| updateproduct.committer := mockCommitter;
     updateproduct.repo := inMemoryProductRepo;
     updateproduct.eventRepo := inMemoryEventRepo;
     updateproduct.ticker := fixedTicker |}.

End integration_test.

(** * The persistence of products, the queries and the transports *)

(** ** Package [m_product]: the products table *)

Module m_product.
Import domain.

Definition Table : string := "products".

Definition ProductID : string := "product_id".
Definition Name : string := "name".
Definition Description : string := "description".
Definition Category : string := "category".
Definition BasePriceNumerator : string := "base_price_numerator".
Definition BasePriceDenominator : string := "base_price_denominator".
Definition DiscountPercent : string := "discount_percent".
Definition DiscountStartDate : string := "discount_start_date".
Definition DiscountEndDate : string := "discount_end_date".
Definition Status : string := "status".
Definition CreatedAt : string := "created_at".
Definition UpdatedAt : string := "updated_at".
Definition ArchivedAt : string := "archived_at".

(** [ProductRow]: a row of the table.  A nullable column
    ([spanner.NullNumeric], [spanner.NullTime]) is an option, [None]
    when its [Valid] flag is unset; a NUMERIC is a rational. *)
Module ProductRow.

Record ProductRow : Type := {
  ProductID : string;
  Name : string;
  Description : string;
  Category : string;
  BasePriceNumerator : Z;
  BasePriceDenominator : Z;
  DiscountPercent : option Q;
  DiscountStartDate : option time.Time;
  DiscountEndDate : option time.Time;
  Status : string;
  CreatedAt : time.Time;
  UpdatedAt : time.Time;
  ArchivedAt : option time.Time
}.

End ProductRow.

Section ToDomain.

(** [big.Rat.Float64], [fmt.Sprintf("%g", f)] and
    [strconv.ParseFloat]. *)
Variable Rat_Float64 : Q → float.
Variable fmt_Sprintf_g : float → string.
Variable strconv_ParseFloat : string → option float.

Definition formatDecimal (f : float) : string := fmt_Sprintf_g f.

(** [ToDomain] converts a row to the aggregate. *)
Definition ToDomain (r : ProductRow.ProductRow) : result Product :=
  basePrice ← NewMoney (ProductRow.BasePriceNumerator r) "VND";
  discount ←
    match ProductRow.DiscountPercent r, ProductRow.DiscountStartDate r,
          ProductRow.DiscountEndDate r with
    | Some numeric, Some startDate, Some endDate =>
        let f := Rat_Float64 numeric in
        let pct := formatDecimal f in
        d ← NewDiscount strconv_ParseFloat pct startDate endDate;
        Ok (Some d)
    | _, _, _ => Ok None
    end;
  Reconstitute (ProductRow.ProductID r) (ProductRow.Name r) (ProductRow.Description r)
    (ProductRow.Category r) (Some basePrice) discount (ProductRow.Status r).

End ToDomain.

End m_product.

(** ** Package [repo]: the product repository *)

Module product_repo.
Import domain.

(** A value of a column of a products row, as the repository hands it
    to the client library in a [map[string]any]. *)
Inductive any : Type :=
  | AnyString (s : string)
  | AnyInt64 (n : Z)
  | AnyRat (q : Q)
  | AnyTime (t : time.Time)
  | AnyNil
  | AnyCommitTimestamp.

(** [spanner.InsertMap] and [spanner.UpdateMap] over such a row. *)
Record RowMutation : Type := {
  row_op : spanner.Op;
  row_table : string;
  row_values : gmap string any
}.

Definition InsertMap (table : string) (row : gmap string any) : RowMutation :=
  {| row_op := spanner.OpInsert; row_table := table; row_values := row |}.

Definition UpdateMap (table : string) (row : gmap string any) : RowMutation :=
  {| row_op := spanner.OpUpdate; row_table := table; row_values := row |}.

(** [var rat big.Rat; rat.SetFloat64(f)]: the rational a finite float
    is, in lowest terms; for an infinity or NaN the call sets nothing
    and [rat] keeps its zero value. *)
Definition Rat_SetFloat64 (f : float) : Q :=
  match Prim2SF f with
  | S754_finite s m e =>
      let n := if s then Z.neg m else Z.pos m in
      if 0 <=? e then (n * 2 ^ e) # 1
      else Qred (n # Z.to_pos (2 ^ (- e)))
  | _ => 0 # 1
  end.

Section ProductRepo.

Variable strconv_ParseFloat : string → option float.

(** The three discount columns of a row. *)
Definition discount_columns (d : Discount) (row : gmap string any) : gmap string any :=
  let rat := Rat_SetFloat64 (Discount_PercentageFloat64 strconv_ParseFloat d) in
  let row := <[m_product.DiscountPercent := AnyRat rat]> row in
  let row := <[m_product.DiscountStartDate := AnyTime (startsAt d)]> row in
  <[m_product.DiscountEndDate := AnyTime (endsAt d)]> row.

(** [InsertMut]: the INSERT of a new product.  Reading the amount of
    an absent base price panics. *)
Definition ProductRepo_InsertMut (p : Product) : result RowMutation :=
  match basePrice p with
  | None => Panic nil_dereference
  | Some price =>
      let row : gmap string any :=
        {[ m_product.ProductID := AnyString (id p);
           m_product.Name := AnyString (name p);
           m_product.Description := AnyString (description p);
           m_product.Category := AnyString (category p);
           m_product.BasePriceNumerator := AnyInt64 (amount price);
           m_product.BasePriceDenominator := AnyInt64 1;
           m_product.Status := AnyString (status p);
           m_product.CreatedAt := AnyCommitTimestamp;
           m_product.UpdatedAt := AnyCommitTimestamp ]} in
      let row :=
        match discount p with
        | Some d => discount_columns d row
        | None => row
        end in
      Ok (InsertMap m_product.Table row)
  end.

(** [UpdateMut]: the UPDATE of the dirty fields of a product, or
    [Ok None] ([nil]) when nothing has changed. *)
Definition ProductRepo_UpdateMut (p : Product) : result (option RowMutation) :=
  let updates : gmap string any :=
    {[ m_product.ProductID := AnyString (id p);
       m_product.UpdatedAt := AnyCommitTimestamp ]} in
  let c := changes p in
  let updates :=
    if Changes_Dirty c FieldName
    then <[m_product.Name := AnyString (name p)]> updates else updates in
  let updates :=
    if Changes_Dirty c FieldDescription
    then <[m_product.Description := AnyString (description p)]> updates else updates in
  let updates :=
    if Changes_Dirty c FieldCategory
    then <[m_product.Category := AnyString (category p)]> updates else updates in
  updates ←
    (if Changes_Dirty c FieldBasePrice
     then match basePrice p with
          | Some price =>
              let updates :=
                <[m_product.BasePriceNumerator := AnyInt64 (amount price)]> updates in
              Ok (<[m_product.BasePriceDenominator := AnyInt64 1]> updates)
          | None => Panic nil_dereference
          end
     else Ok updates);
  let updates :=
    if Changes_Dirty c FieldStatus
    then <[m_product.Status := AnyString (status p)]> updates else updates in
  let updates :=
    if Changes_Dirty c FieldDiscount
    then match discount p with
         | Some d => discount_columns d updates
         | None =>
             let updates := <[m_product.DiscountPercent := AnyNil]> updates in
             let updates := <[m_product.DiscountStartDate := AnyNil]> updates in
             <[m_product.DiscountEndDate := AnyNil]> updates
         end
    else updates in
  if Nat.eqb (size updates) 2 then Ok None
  else Ok (Some (UpdateMap m_product.Table updates)).

End ProductRepo.

End product_repo.

(** ** Package [contract]: the query port *)

Module contract_query.

Record ListProductsFilter : Type := { Category : option string }.

(** [Limit] and [Offset] are of type [int]. *)
Record Page : Type := { Limit : Z; Offset : Z }.

Record QueryRepository (W : Type) : Type := {
  GetByID : string → W → domain.result domain.Product * W;
  ListActive : ListProductsFilter → Page → W → domain.result (list domain.Product) * W
}.
Arguments GetByID {W} _ _ _.
Arguments ListActive {W} _ _ _ _.

End contract_query.

(** ** Package [getproduct]: one product with its effective price *)

Module getproduct.
Import domain.

Record MoneyDTO : Type := { Amount : Z; Currency : string }.

Record DiscountDTO : Type := {
  Percentage : string;
  StartsAt : time.Time;
  EndsAt : time.Time;
  IsActive : bool
}.

Record ProductDTO : Type := {
  ID : string;
  Name : string;
  Description : string;
  Category : string;
  Status : string;
  BasePrice : MoneyDTO;
  EffectivePrice : MoneyDTO;
  Discount : option DiscountDTO
}.

Record GetProductRequest : Type := { ProductID : string }.

Section Query.

Variable W : Type.
Variable strconv_ParseFloat : string → option float.
Variable int64_unrepresentable : float → Z.

Record GetProductQuery : Type := {
  queryRepo : contract_query.QueryRepository W;
  ticker : common.Ticker W
}.

Definition Execute (q : GetProductQuery) (req : GetProductRequest) (w : W)
    : result ProductDTO * W :=
  let '(loaded, w) := contract_query.GetByID (queryRepo q) (ProductID req) w in
  match loaded with
  | Err err => (Err err, w)
  | Panic text => (Panic text, w)
  | Ok product =>
      let '(now, w) := common.Now (ticker q) w in
      match services.EffectivePrice strconv_ParseFloat int64_unrepresentable
              (basePrice product) (discount product) now with
      | Err err => (Err err, w)
      | Panic text => (Panic text, w)
      | Ok effective =>
          match basePrice product with
          | None => (Panic nil_dereference, w)
          | Some base =>
              let dto :=
                {| ID := id product;
                   Name := name product;
                   Description := description product;
                   Category := category product;
                   Status := status product;
                   BasePrice := {| Amount := amount base; Currency := currency base |};
                   EffectivePrice :=
                     {| Amount := amount effective; Currency := currency effective |};
                   Discount :=
                     match discount product with
                     | Some d =>
                         Some {| Percentage := percentage d;
                                 StartsAt := startsAt d;
                                 EndsAt := endsAt d;
                                 IsActive := Discount_IsValidAt d now |}
                     | None => None
                     end |} in
              (Ok dto, w)
          end
      end
  end.

End Query.

Arguments queryRepo {W} _.
Arguments ticker {W} _.

End getproduct.

(** ** Package [listproducts]: the active products with their prices *)

Module listproducts.
Import domain.

Definition defaultLimit : Z := 20.

Record MoneyDTO : Type := { Amount : Z; Currency : string }.

Record ProductSummaryDTO : Type := {
  ID : string;
  Name : string;
  Category : string;
  Status : string;
  BasePrice : MoneyDTO;
  EffectivePrice : MoneyDTO;
  IsDiscounted : bool;
  DiscountEndsAt : option time.Time
}.

(** The filter field [Category] of the request is [req_Category] here,
    the name being taken by the summary. *)
Record ListProductsRequest : Type := {
  req_Category : option string;
  Limit : Z;
  Offset : Z
}.

Record ListProductsResponse : Type := {
  Items : list ProductSummaryDTO;
  TotalCount : Z
}.

Section Query.

Variable W : Type.
Variable strconv_ParseFloat : string → option float.
Variable int64_unrepresentable : float → Z.

Record ListProductsQuery : Type := {
  queryRepo : contract_query.QueryRepository W;
  ticker : common.Ticker W
}.

(** The loop over the products: a summary is appended for each, and the
    first pricing error ends the query. *)
Fixpoint summaries (now : time.Time) (products : list Product)
    (items : list ProductSummaryDTO) : result (list ProductSummaryDTO) :=
  match products with
  | [] => Ok items
  | p :: products =>
      match services.EffectivePrice strconv_ParseFloat int64_unrepresentable
              (basePrice p) (discount p) now with
      | Err err => Err err
      | Panic text => Panic text
      | Ok effective =>
          match basePrice p with
          | None => Panic nil_dereference
          | Some base =>
              let summary :=
                {| ID := id p;
                   Name := name p;
                   Category := category p;
                   Status := status p;
                   BasePrice := {| Amount := amount base; Currency := currency base |};
                   EffectivePrice :=
                     {| Amount := amount effective; Currency := currency effective |};
                   IsDiscounted := services.IsDiscounted (discount p) now;
                   DiscountEndsAt :=
                     match discount p with
                     | Some d => if Discount_IsValidAt d now then Some (endsAt d) else None
                     | None => None
                     end |} in
              summaries now products (items ++ [summary])
          end
      end
  end.

Definition Execute (q : ListProductsQuery) (req : ListProductsRequest) (w : W)
    : result ListProductsResponse * W :=
  let limit := Limit req in
  let limit := if limit <=? 0 then defaultLimit else limit in
  let '(listed, w) :=
    contract_query.ListActive (queryRepo q)
      {| contract_query.Category := req_Category req |}
      {| contract_query.Limit := limit; contract_query.Offset := Offset req |} w in
  match listed with
  | Err err => (Err err, w)
  | Panic text => (Panic text, w)
  | Ok products =>
      let '(now, w) := common.Now (ticker q) w in
      match summaries now products [] with
      | Err err => (Err err, w)
      | Panic text => (Panic text, w)
      | Ok items =>
          (Ok {| Items := items; TotalCount := Z.of_nat (length items) |}, w)
      end
  end.

End Query.

Arguments queryRepo {W} _.
Arguments ticker {W} _.

End listproducts.

(** ** Package [rest]: errors as HTTP status codes *)

Module rest.
Import domain.

Definition StatusNotFound : Z := 404.
Definition StatusUnprocessableEntity : Z := 422.
Definition StatusInternalServerError : Z := 500.

(** [domainErrToStatus] maps the sentinel errors to status codes. *)
Definition domainErrToStatus (err : error) : Z :=
  if errors_Is err ErrProductNotFound then StatusNotFound
  else if errors_Is err ErrProductNotActive
          || errors_Is err ErrProductNameRequired
          || errors_Is err ErrProductBasePriceRequired
          || errors_Is err ErrDiscountInvalidPercentage
          || errors_Is err ErrDiscountInvalidPeriod
          || errors_Is err ErrNoActiveDiscount
          || errors_Is err ErrInvalidDiscountPeriod
  then StatusUnprocessableEntity
  else StatusInternalServerError.

End rest.

(** ** Package [grpctransport]: errors as gRPC codes, and the update request *)

Module grpctransport.
Import domain.

Definition InvalidArgument : Z := 3.
Definition NotFound : Z := 5.
Definition FailedPrecondition : Z := 9.
Definition Internal : Z := 13.

(** [domainErrToCode] maps the sentinel errors to gRPC codes. *)
Definition domainErrToCode (err : error) : Z :=
  if errors_Is err ErrProductNotFound then NotFound
  else if errors_Is err ErrProductNameRequired
          || errors_Is err ErrProductBasePriceRequired
          || errors_Is err ErrDiscountInvalidPercentage
          || errors_Is err ErrDiscountInvalidPeriod
          || errors_Is err ErrInvalidDiscountPeriod
          || errors_Is err ErrNoActiveDiscount
  then InvalidArgument
  else if errors_Is err ErrProductNotActive then FailedPrecondition
  else Internal.

(** [toStatusErr]: the code and the message of the status error. *)
Definition toStatusErr (err : error) : Z * string :=
  (domainErrToCode err, error_text err).

(** The request [UpdateProduct] hands to the use case: a field of the
    message that is the empty string is left unset. *)
Definition UpdateProduct_request (Id Name Description Category : string)
    : updateproduct.UpdateProductRequest :=
  {| updateproduct.ProductID := Id;
     updateproduct.Name := if bool_decide (Name ≠ "") then Some Name else None;
     updateproduct.Description :=
       if bool_decide (Description ≠ "") then Some Description else None;
     updateproduct.Category :=
       if bool_decide (Category ≠ "") then Some Category else None |}.

Section Server.

Variable W : Type.
Variable map_range : gset Field → list Field.

(** [UpdateProduct]: the reply, or the status error of a failed use
    case. *)
Definition UpdateProduct (it : updateproduct.UpdateProductInteractor W)
    (Id Name Description Category : string) (w : W) : result (option (Z * string)) * W :=
  let ucReq := UpdateProduct_request Id Name Description Category in
  match updateproduct.Execute W map_range it ucReq w with
  | (Err err, w) => (Ok (Some (toStatusErr err)), w)
  | (Panic text, w) => (Panic text, w)
  | (Ok _, w) => (Ok None, w)
  end.

End Server.

End grpctransport.

(** ** Package [applydiscount]: the apply-discount use case *)

Module applydiscount.
Import domain.

Record ApplyDiscountRequest : Type := {
  ProductID : string;
  Percentage : string;
  StartsAt : time.Time;
  EndsAt : time.Time
}.

Section Interactor.

Variable W : Type.
Variable strconv_ParseFloat : string → option float.

Record ApplyDiscountInteractor : Type := {
  committer : commitplanner.Applier W;
  repo : contract.ProductRepository W;
  eventRepo : contract.EventRepository W;
  ticker : common.Ticker W
}.

(** The loop over [product.Events()]. *)
Definition add_event_muts (it : ApplyDiscountInteractor) (events : list DomainEvent)
    (plan : commitplanner.Plan) (w : W) : commitplanner.Plan * W :=
  foldl (λ '(plan, w) event,
           let '(mut, w) := contract.Event_InsertMut (eventRepo it) event w in
           match mut with
           | Some mut => (commitplanner.Plan_Add mut plan, w)
           | None => (plan, w)
           end)
        (plan, w) events.

(** [Execute] up to its last statement: the error returned early, or
    the aggregate with the discount applied and the plan built for it. *)
Definition Execute_plan (it : ApplyDiscountInteractor) (req : ApplyDiscountRequest) (w : W)
    : result (Product * commitplanner.Plan) * W :=
  let '(loaded, w) := contract.GetByID (repo it) (ProductID req) w in
  match loaded with
  | Err err => (Err err, w)
  | Panic text => (Panic text, w)
  | Ok product =>
      match NewDiscount strconv_ParseFloat (Percentage req) (StartsAt req) (EndsAt req) with
      | Err err => (Err err, w)
      | Panic text => (Panic text, w)
      | Ok discount =>
          let '(now, w) := common.Now (ticker it) w in
          let '(err, product) := Product_ApplyDiscount (Some discount) now product in
          match err with
          | Some err => (Err err, w)
          | None =>
              let plan := commitplanner.NewPlan in
              let '(mut, w) := contract.UpdateMut (repo it) product w in
              let plan :=
                match mut with
                | Some mut => commitplanner.Plan_Add mut plan
                | None => plan
                end in
              let '(plan, w) := add_event_muts it (events product) plan w in
              (Ok (product, plan), w)
          end
      end
  end.

Definition Execute (it : ApplyDiscountInteractor) (req : ApplyDiscountRequest) (w : W)
    : result unit * W :=
  match Execute_plan it req w with
  | (Ok (_, plan), w) =>
      match commitplanner.Apply (committer it) plan w with
      | (Some err, w) => (Err err, w)
      | (None, w) => (Ok (), w)
      end
  | (Err err, w) => (Err err, w)
  | (Panic text, w) => (Panic text, w)
  end.

End Interactor.

Arguments committer {W} _.
Arguments repo {W} _.
Arguments eventRepo {W} _.
Arguments ticker {W} _.

End applydiscount.

(** ** The in-memory repository of package [integration_test] as query port *)

Module integration_test_query.
Import domain.

Section Listing.

(** The order in which [range] walks the store. *)
Variable range_store : gmap string Product → list Product.

(** [ListActive]: the Active products of the category asked for, from
    the offset on, at most [Limit] of them when the limit is positive.
    Slicing from a negative offset panics. *)
Definition ListActive (filter : contract_query.ListProductsFilter)
    (page : contract_query.Page) (w : integration_test.World)
    : result (list Product) * integration_test.World :=
  let result :=
    foldl (λ result p,
             if bool_decide (status p ≠ ProductStatusActive) then result
             else
               match contract_query.Category filter with
               | Some category =>
                   if bool_decide (domain.category p ≠ category) then result
                   else (result ++ [p])%list
               | None => (result ++ [p])%list
               end)
          [] (range_store (integration_test.store w)) in
  if Z.of_nat (length result) <=? contract_query.Offset page then (Ok [], w)
  else if contract_query.Offset page <? 0
  then (Panic "runtime error: slice bounds out of range", w)
  else
    let result := drop (Z.to_nat (contract_query.Offset page)) result in
    let result :=
      if (0 <? contract_query.Limit page)
         && (contract_query.Limit page <? Z.of_nat (length result))
      then take (Z.to_nat (contract_query.Limit page)) result
      else result in
    (Ok result, w).

Definition inMemoryProductRepo : contract_query.QueryRepository integration_test.World :=
  {| contract_query.GetByID := contract.GetByID integration_test.inMemoryProductRepo;
     contract_query.ListActive := ListActive |}.

End Listing.

End integration_test_query.

(** * Statements and inputs used by the properties *)

Import domain.

(** ** Readings of the specification *)

(** The error a call returned, if any. *)
Definition error_of {A : Type} (r : result A) : option error :=
  match r with
  | Err e => Some e
  | _ => None
  end.

(** The reading of the specification: an operation on two present
    operands of different currencies fails with CurrencyMismatch, and an
    operation whose second operand is absent fails with an error that
    is not CurrencyMismatch. *)
Definition absent_operand_has_own_error (op : Money → option Money → option error) : Prop :=
  (∀ m o, currency m ≠ currency o →
          ∃ e, op m (Some o) = Some e ∧ errors_Is e ErrCurrencyMismatch = true)
  ∧ (∀ m, ∃ e, op m None = Some e ∧ errors_Is e ErrCurrencyMismatch = false).

(** The specification's arithmetic: rounding of a rational to the
    nearest integer, halfway cases away from zero, and the discounted
    amount [round(amount * (1 - pct/100))] computed exactly. *)
Definition round_half_away (q : Q) : Z :=
  Z.sgn (Qnum q) * ((2 * Z.abs (Qnum q) + Z.pos (Qden q)) / (2 * Z.pos (Qden q))).

Definition exact_discounted (amount : Z) (pct : Q) : Z :=
  round_half_away (inject_Z amount * (1 - pct / 100))%Q.

Section EventDescriptors.

Variable W : Type.

(** What the event repository answers for the events in turn, each call
    starting from the state the previous one left. *)
Fixpoint event_descriptors (it : updateproduct.UpdateProductInteractor W)
    (events : list DomainEvent) (w : W) : list (option spanner.Mutation) * W :=
  match events with
  | [] => ([], w)
  | event :: events =>
      let '(mut, w) := contract.Event_InsertMut (updateproduct.eventRepo it) event w in
      let '(muts, w) := event_descriptors it events w in
      (mut :: muts, w)
  end.

End EventDescriptors.

Arguments event_descriptors {W} it events w.

(** The reading of the specification: the use case gets as far as a
    plan to submit only if every pending event of the mutated aggregate
    can be converted, that is the event repository has a descriptor for
    it in some state at least. *)
Definition commit_fails_on_unconvertible_event : Prop :=
  ∀ (W : Type) (map_range : gset Field → list Field)
    (it : updateproduct.UpdateProductInteractor W)
    (req : updateproduct.UpdateProductRequest) (w w' : W)
    (product : Product) (plan : commitplanner.Plan),
    updateproduct.Execute_plan W map_range it req w = (Ok (product, plan), w') →
    ∀ event, event ∈ events product →
      ∃ w0, (contract.Event_InsertMut (updateproduct.eventRepo it) event w0).1 ≠ None.

(** Every pending event is of one of the six types of the package. *)
Definition only_product_events (p : Product) : Prop :=
  Forall (λ e, is_product_event e = true) (events p).

(** ** A run of the update use case against the test doubles *)

(** The update of the name of a stored product, run against the test
    doubles, whose event repository has no descriptor for any event. *)
Definition stored_product : Product :=
  {| id := "p-1"; name := "Laptop"; description := "a product"; category := "it";
     basePrice := Some {| amount := 100; currency := "VND" |}; discount := None;
     status := ProductStatusActive; changes := NewChanges; events := [] |}.

Definition rename_request : updateproduct.UpdateProductRequest :=
  {| updateproduct.ProductID := "p-1"; updateproduct.Name := Some "Desktop";
     updateproduct.Description := None; updateproduct.Category := None |}.

Definition initial_world : integration_test.World :=
  {| integration_test.store := {[ "p-1" := stored_product ]};
     integration_test.recorded := [];
     integration_test.applied := false;
     integration_test.committer_err := None;
     integration_test.clock := 7 |}.

(** The aggregate after the rename and [RecordUpdate], and the state
    the doubles are left in when the plan has been built. *)
Definition renamed_product : Product :=
  {| id := "p-1"; name := "Desktop"; description := "a product"; category := "it";
     basePrice := Some {| amount := 100; currency := "VND" |}; discount := None;
     status := ProductStatusActive; changes := {| dirty := {[ FieldName ]} |};
     events := [ProductUpdatedEvent "p-1" [FieldName] 7] |}.

Definition world_before_commit : integration_test.World :=
  {| integration_test.store := {[ "p-1" := renamed_product ]};
     integration_test.recorded := [ProductUpdatedEvent "p-1" [FieldName] 7];
     integration_test.applied := false;
     integration_test.committer_err := None;
     integration_test.clock := 7 |}.

(** ** The business methods as calls *)

(** A call of one of the business methods of the aggregate, with its
    arguments. *)
Inductive method : Type :=
  | SetName (name : string)
  | SetDescription (description : string)
  | SetCategory (category : string)
  | SetBasePrice (price : option Money)
  | Activate (now : time.Time)
  | Deactivate (now : time.Time)
  | ApplyDiscount (discount : option Discount) (now : time.Time)
  | RemoveDiscount (now : time.Time)
  | RecordUpdate (now : time.Time).

(** The call made: the error it returns and the receiver it leaves. *)
Definition invoke (map_range : gset Field → list Field) (m : method) (p : Product)
    : option error * Product :=
  match m with
  | SetName name => Product_SetName name p
  | SetDescription description => (None, Product_SetDescription description p)
  | SetCategory category => (None, Product_SetCategory category p)
  | SetBasePrice price => Product_SetBasePrice price p
  | Activate now => Product_Activate now p
  | Deactivate now => Product_Deactivate now p
  | ApplyDiscount discount now => Product_ApplyDiscount discount now p
  | RemoveDiscount now => Product_RemoveDiscount now p
  | RecordUpdate now => (None, Product_RecordUpdate map_range now p)
  end.

(** A sequence of calls, each on the receiver the previous one left,
    whether it failed or not. *)
Definition invoke_all (map_range : gset Field → list Field) (ms : list method)
    (p : Product) : Product :=
  foldl (λ p m, (invoke map_range m p).2) p ms.

(** The time a call is given, if it takes one. *)
Definition method_time (m : method) : option time.Time :=
  match m with
  | Activate now | Deactivate now | ApplyDiscount _ now | RemoveDiscount now
  | RecordUpdate now => Some now
  | _ => None
  end.

(** The invariants of the aggregate: a name, a base price, one of the
    two statuses, and a discount only while Active. *)
Definition well_formed (p : Product) : Prop :=
  name p ≠ ""
  ∧ is_Some (basePrice p)
  ∧ (status p = ProductStatusActive ∨ status p = ProductStatusInactive)
  ∧ (is_Some (discount p) → status p = ProductStatusActive).

(** The tracked fields in which two states of a product differ. *)
Definition changed_fields (p p' : Product) : gset Field :=
  (if decide (name p = name p') then ∅ else {[ FieldName ]})
  ∪ (if decide (description p = description p') then ∅ else {[ FieldDescription ]})
  ∪ (if decide (category p = category p') then ∅ else {[ FieldCategory ]})
  ∪ (if decide (basePrice p = basePrice p') then ∅ else {[ FieldBasePrice ]})
  ∪ (if decide (status p = status p') then ∅ else {[ FieldStatus ]})
  ∪ (if decide (discount p = discount p') then ∅ else {[ FieldDiscount ]}).

(** The product an event is about, for the events of the package. *)
Definition event_product (e : DomainEvent) : option string :=
  match e with
  | ProductCreatedEvent productID _ _ _ _ _ => Some productID
  | ProductUpdatedEvent productID _ _ => Some productID
  | ProductActivatedEvent productID _ => Some productID
  | ProductDeactivatedEvent productID _ => Some productID
  | DiscountAppliedEvent productID _ _ _ _ => Some productID
  | DiscountRemovedEvent productID _ => Some productID
  | ForeignEvent _ _ productID _ => productID
  end.

(** The fields whose marks the repository reads. *)
Definition tracked_fields : gset Field :=
  {[ FieldName; FieldDescription; FieldCategory; FieldBasePrice; FieldStatus;
     FieldDiscount ]}.

(** A [Money] as [NewMoney] makes them: a non-negative [int64] amount
    and a currency code of three bytes. *)
Definition valid_money (m : Money) : Prop :=
  0 ≤ amount m ≤ int64_max ∧ String.length (currency m) = 3%nat.

(** ** Inputs of the examples *)

(** The product of the examples below: Active, without discount. *)
Definition laptop : Product :=
  {| id := "p-1"; name := "Laptop"; description := ""; category := "it";
     basePrice := Some {| amount := 100; currency := "USD" |}; discount := None;
     status := ProductStatusActive; changes := NewChanges; events := [] |}.

(** The test doubles as ports of the other use cases and queries. *)
Definition discount_interactor
    : applydiscount.ApplyDiscountInteractor integration_test.World :=
  {| applydiscount.committer := integration_test.mockCommitter;
     applydiscount.repo := integration_test.inMemoryProductRepo;
     applydiscount.eventRepo := integration_test.inMemoryEventRepo;
     applydiscount.ticker := integration_test.fixedTicker |}.

Definition store_order (store : gmap string Product) : list Product :=
  (map_to_list store).*2.

Definition product_query : getproduct.GetProductQuery integration_test.World :=
  {| getproduct.queryRepo := integration_test_query.inMemoryProductRepo store_order;
     getproduct.ticker := integration_test.fixedTicker |}.

Definition listing_query : listproducts.ListProductsQuery integration_test.World :=
  {| listproducts.queryRepo := integration_test_query.inMemoryProductRepo store_order;
     listproducts.ticker := integration_test.fixedTicker |}.

(** The update use case with the event repository of the package, a
    serialiser that always answers and a fixed event id. *)
Definition outbox_interactor
    : updateproduct.UpdateProductInteractor integration_test.World :=
  {| updateproduct.committer := integration_test.mockCommitter;
     updateproduct.repo := integration_test.inMemoryProductRepo;
     updateproduct.eventRepo :=
       repo.NewEventRepo _ (λ _, Ok "{}") (λ _, "1970-01-01T00:00:07Z")
         (λ w, ("e-1", w));
     updateproduct.ticker := integration_test.fixedTicker |}.

(** ** Proof automation *)

(** Unfolds the field assignments of the aggregate. *)
Ltac unfold_assignments :=
  cbv beta iota zeta delta
    [append_event mark_dirty set_events set_status set_discount set_basePrice
     set_category set_description set_name Changes_MarkDirty
     id name description category basePrice discount status changes events dirty
     fst snd] in *.

(** Names the fields of a product, so that the assignments compute. *)
Ltac destruct_product p :=
  let i := fresh "id" in
  let n := fresh "name" in
  let de := fresh "description" in
  let c := fresh "category" in
  let b := fresh "basePrice" in
  let di := fresh "discount" in
  let s := fresh "status" in
  let ch := fresh "dirty" in
  let e := fresh "events" in
  destruct p as [i n de c b di s [ch] e]; simpl in *.

(** Closes the goals that a queue holds events of the package only. *)
Ltac solve_only_product_events :=
  unfold only_product_events in *; unfold_assignments;
  repeat (apply Forall_app; split); try assumption;
  repeat constructor.

(** Splits a goal about [invoke] into the methods and their branches. *)
Ltac method_cases m p :=
  destruct_product p; destruct m; unfold invoke; simpl;
  unfold Product_SetName, Product_SetDescription, Product_SetCategory,
    Product_SetBasePrice, Product_Activate, Product_Deactivate, Product_ApplyDiscount,
    Product_RemoveDiscount, Product_RecordUpdate;
  unfold_assignments;
  repeat case_bool_decide;
  repeat match goal with
         | |- context [match ?x with Some _ => _ | None => _ end] => destruct x
         | |- context [if negb (Discount_IsValidAt ?d ?now) then _ else _] =>
             destruct (Discount_IsValidAt d now) eqn:?
         | |- context [if Nat.eqb ?n 0 then _ else _] => destruct (Nat.eqb n 0)
         end;
  unfold_assignments.

(** Decides the equalities a goal tests, dropping the absurd cases. *)
Ltac decide_cases :=
  repeat match goal with
         | |- context [decide ?P] => destruct (decide P); try congruence
         end.

(** * Properties *)

(** ** Auxiliary facts *)

(** The append loop [for x := range l { acc = append(acc, x) }]. *)
Lemma foldl_append {A : Type} (l acc : list A) :
  foldl (λ acc x, (acc ++ [x])%list) acc l = (acc ++ l)%list.
Proof.
  revert acc. induction l as [|x l IH]; intros acc; simpl.
  - by rewrite app_nil_r.
  - rewrite IH. by rewrite <- app_assoc.
Qed.

Lemma wrap64_id (z : Z) : in_int64 z = true → wrap64 z = z.
Proof.
  unfold in_int64, int64_min, int64_max, wrap64. intros H.
  apply andb_true_iff in H as [H1 H2].
  apply Z.leb_le in H1, H2.
  rewrite Z.mod_small; lia.
Qed.

(** ** Constructors *)

(** [NewProduct] succeeds exactly on a non-empty name and a present
    base price, and the product it returns keeps both. *)
Lemma NewProduct_validates (uuid name description category : string)
    (basePrice : option Money) (now : time.Time) :
  match NewProduct uuid name description category basePrice now with
  | Ok p => name ≠ "" ∧ domain.name p = name
            ∧ is_Some basePrice ∧ domain.basePrice p = basePrice
            ∧ status p = ProductStatusActive
            ∧ events p = [ProductCreatedEvent uuid name category basePrice
                            ProductStatusActive now]
            ∧ dirty (changes p) = ∅
  | Err e => (name = "" ∧ e = ErrProductNameRequired)
             ∨ (name ≠ "" ∧ basePrice = None ∧ e = ErrProductBasePriceRequired)
  | Panic _ => False
  end.
Proof.
  unfold NewProduct. case_bool_decide as Hname.
  - by left.
  - destruct basePrice as [m|]; simpl.
    + repeat split; eauto.
    + by right.
Qed.

(** [Reconstitute] tests the id, the name and the status, and nothing
    else: the base price it is given is stored as it is. *)
Lemma Reconstitute_validates (id name description category : string)
    (basePrice : option Money) (discount : option Discount) (status : ProductStatus) :
  id ≠ "" → name ≠ "" →
  status = ProductStatusActive ∨ status = ProductStatusInactive →
  Reconstitute id name description category basePrice discount status
  = Ok {| id := id; name := name; description := description; category := category;
          basePrice := basePrice; discount := discount; status := status;
          changes := NewChanges; events := [] |}.
Proof.
  intros Hid Hname Hstatus. unfold Reconstitute.
  rewrite (bool_decide_eq_false_2 _ Hid), (bool_decide_eq_false_2 _ Hname).
  destruct Hstatus as [-> | ->]; reflexivity.
Qed.

(** C2: every Product a constructor returns should have a non-empty
    name and a present base price.  [NewProduct] guarantees it
    ([NewProduct_validates]); [Reconstitute] does not test the base
    price: called with a valid id, name and status and a [nil] base
    price, it returns, without error, a Product whose base price is
    [nil]. *)
Theorem Reconstitute_accepts_nil_basePrice :
  ∃ p, Reconstitute "p-1" "Laptop" "" "" None None ProductStatusActive = Ok p
       ∧ name p = "Laptop" ∧ basePrice p = None.
Proof. eexists. split; [reflexivity | split; reflexivity]. Qed.

(** ** Setters *)

(** [SetName], [SetDescription] and [SetCategory] leave the receiver as
    it is when given the value the field already has. *)
Lemma SetName_same_value (p : Product) : (Product_SetName (name p) p).2 = p.
Proof.
  unfold Product_SetName. case_bool_decide; [done|].
  by rewrite bool_decide_eq_true_2.
Qed.

Lemma SetDescription_same_value (p : Product) :
  Product_SetDescription (description p) p = p.
Proof. unfold Product_SetDescription. by rewrite bool_decide_eq_true_2. Qed.

Lemma SetCategory_same_value (p : Product) :
  Product_SetCategory (category p) p = p.
Proof. unfold Product_SetCategory. by rewrite bool_decide_eq_true_2. Qed.

(** C3: a setter given the current value of its field should be a
    no-op.  [SetName], [SetDescription] and [SetCategory] are
    ([SetName_same_value] and its siblings); [SetBasePrice] has no such
    test: given the base price the product already has, it marks
    [base_price] dirty, and a following [RecordUpdate] appends an
    [Updated] event listing it. *)
Theorem SetBasePrice_same_value_marks_dirty :
  let price := Some {| amount := 100; currency := "USD" |} in
  let p := {| id := "p-1"; name := "Laptop"; description := ""; category := "it";
              basePrice := price; discount := None; status := ProductStatusActive;
              changes := NewChanges; events := [] |} in
  let p' := (Product_SetBasePrice price p).2 in
  (Product_SetBasePrice price p).1 = None
  ∧ basePrice p' = basePrice p
  ∧ Changes_Dirty (changes p) FieldBasePrice = false
  ∧ Changes_Dirty (changes p') FieldBasePrice = true
  ∧ events (Product_RecordUpdate runtime.range_elements 7 p')
    = [ProductUpdatedEvent "p-1" [FieldBasePrice] 7].
Proof. simpl. repeat split; vm_compute; reflexivity. Qed.

(** [SetBasePrice] marks [base_price] dirty on every successful call,
    whatever the product held before. *)
Lemma SetBasePrice_always_marks_dirty (p : Product) (m : Money) :
  Changes_Dirty (changes (Product_SetBasePrice (Some m) p).2) FieldBasePrice = true.
Proof.
  simpl. unfold Changes_Dirty. apply bool_decide_eq_true_2. simpl. set_solver.
Qed.

(** ** Status transitions and discounts *)

(** C5: on an Active product holding a discount, [Deactivate] sets the
    status to Inactive, clears the discount, marks [status] and
    [discount] dirty and appends exactly two events, DiscountRemoved
    then Deactivated, leaving the other fields alone; a second
    [Deactivate] returns the product it is given: no event, no dirty
    mark, no field changed. *)
Theorem Deactivate_with_discount_then_idempotent
    (p : Product) (d : Discount) (now now' : time.Time) :
  status p = ProductStatusActive →
  discount p = Some d →
  let p1 := (Product_Deactivate now p).2 in
  (Product_Deactivate now p).1 = None
  ∧ status p1 = ProductStatusInactive
  ∧ discount p1 = None
  ∧ events p1 = (events p ++ [DiscountRemovedEvent (id p) now;
                              ProductDeactivatedEvent (id p) now])%list
  ∧ dirty (changes p1) = {[ FieldDiscount ]} ∪ ({[ FieldStatus ]} ∪ dirty (changes p))
  ∧ (id p1, name p1, description p1, category p1, basePrice p1)
    = (id p, name p, description p, category p, basePrice p)
  ∧ Product_Deactivate now' p1 = (None, p1).
Proof.
  intros Hstatus Hdiscount. destruct_product p. subst.
  unfold Product_Deactivate.
  rewrite bool_decide_eq_false_2 by discriminate.
  unfold_assignments.
  rewrite bool_decide_eq_true_2 by reflexivity.
  repeat split. by rewrite <- app_assoc.
Qed.

Lemma Deactivate_with_discount_then_idempotent_witness :
  let p := {| id := "p-1"; name := "Laptop"; description := ""; category := "it";
              basePrice := Some {| amount := 100; currency := "USD" |};
              discount := Some {| percentage := "10"; startsAt := 0; endsAt := 100 |};
              status := ProductStatusActive; changes := NewChanges; events := [] |} in
  events (Product_Deactivate 5 p).2
  = [DiscountRemovedEvent "p-1" 5; ProductDeactivatedEvent "p-1" 5]
  ∧ Product_Deactivate 6 (Product_Deactivate 5 p).2 = (None, (Product_Deactivate 5 p).2).
Proof.
  intros p.
  pose proof (Deactivate_with_discount_then_idempotent p
                {| percentage := "10"; startsAt := 0; endsAt := 100 |} 5 6
                eq_refl eq_refl) as H.
  cbv zeta in H. destruct H as (_ & _ & _ & Hevents & _ & _ & Hagain).
  split; [exact Hevents | exact Hagain].
Defined.

(** C6: on a product that is not Active, [ApplyDiscount] returns the
    product-not-active error whatever the discount is, without looking
    at its window; and whenever [ApplyDiscount] returns an error (not
    active, no discount given, or window not valid at [now]) the product
    is exactly as before: no field changed, nothing marked dirty, no
    event appended. *)
Theorem ApplyDiscount_fails_fast
    (p : Product) (discount : option Discount) (now : time.Time) :
  (status p ≠ ProductStatusActive →
   Product_ApplyDiscount discount now p = (Some ErrProductNotActive, p))
  ∧ (∀ d, status p = ProductStatusActive → discount = Some d →
          Discount_IsValidAt d now = false →
          Product_ApplyDiscount discount now p = (Some ErrInvalidDiscountPeriod, p))
  ∧ (∀ err, (Product_ApplyDiscount discount now p).1 = Some err →
            (Product_ApplyDiscount discount now p).2 = p).
Proof.
  unfold Product_ApplyDiscount. split; [|split].
  - intros Hstatus. by rewrite bool_decide_eq_true_2.
  - intros d Hstatus -> Hvalid.
    rewrite bool_decide_eq_false_2 by (by intros Hne).
    by rewrite Hvalid.
  - intros err. case_bool_decide; [done|].
    destruct discount as [d|]; [|done].
    destruct (Discount_IsValidAt d now); simpl; [discriminate | done].
Qed.

Lemma ApplyDiscount_fails_fast_witness :
  let p := {| id := "p-1"; name := "Laptop"; description := ""; category := "it";
              basePrice := Some {| amount := 100; currency := "USD" |};
              discount := None; status := ProductStatusInactive;
              changes := NewChanges; events := [] |} in
  let q := {| id := "p-2"; name := "Phone"; description := ""; category := "it";
              basePrice := Some {| amount := 100; currency := "USD" |};
              discount := None; status := ProductStatusActive;
              changes := NewChanges; events := [] |} in
  let d := Some {| percentage := "10"; startsAt := 0; endsAt := 100 |} in
  Product_ApplyDiscount d 5 p = (Some ErrProductNotActive, p)
  ∧ Product_ApplyDiscount d 100 q = (Some ErrInvalidDiscountPeriod, q)
  ∧ (Product_ApplyDiscount None 5 q).2 = q.
Proof.
  intros p q d. split; [|split].
  - exact (proj1 (ApplyDiscount_fails_fast p d 5) ltac:(discriminate)).
  - exact (proj1 (proj2 (ApplyDiscount_fails_fast q d 100)) _ eq_refl eq_refl eq_refl).
  - exact (proj2 (proj2 (ApplyDiscount_fails_fast q None 5)) _ eq_refl).
Defined.

(** C10: on an Active product that already holds a discount,
    [ApplyDiscount] with a discount valid at [now] succeeds, puts the
    new discount in place of the old one, marks [discount] dirty and
    appends one event, DiscountApplied for the new discount; no
    DiscountRemoved event is appended for the discount replaced. *)
Theorem ApplyDiscount_replaces_discount
    (p : Product) (old d : Discount) (now : time.Time) :
  status p = ProductStatusActive →
  discount p = Some old →
  Discount_IsValidAt d now = true →
  let p1 := (Product_ApplyDiscount (Some d) now p).2 in
  (Product_ApplyDiscount (Some d) now p).1 = None
  ∧ discount p1 = Some d
  ∧ events p1 = (events p ++ [DiscountAppliedEvent (id p) (percentage d) (startsAt d)
                                (endsAt d) now])%list
  ∧ dirty (changes p1) = {[ FieldDiscount ]} ∪ dirty (changes p)
  ∧ (id p1, name p1, description p1, category p1, basePrice p1, status p1)
    = (id p, name p, description p, category p, basePrice p, status p).
Proof.
  intros Hstatus _ Hvalid. destruct_product p. subst.
  unfold Product_ApplyDiscount.
  rewrite bool_decide_eq_false_2 by (by intros Hne).
  rewrite Hvalid. unfold_assignments. repeat split.
Qed.

Lemma ApplyDiscount_replaces_discount_witness :
  let old := {| percentage := "10"; startsAt := 0; endsAt := 100 |} in
  let d := {| percentage := "25"; startsAt := 3; endsAt := 50 |} in
  let p := {| id := "p-1"; name := "Laptop"; description := ""; category := "it";
              basePrice := Some {| amount := 100; currency := "USD" |};
              discount := Some old; status := ProductStatusActive;
              changes := NewChanges; events := [] |} in
  discount (Product_ApplyDiscount (Some d) 5 p).2 = Some d
  ∧ events (Product_ApplyDiscount (Some d) 5 p).2 = [DiscountAppliedEvent "p-1" "25" 3 50 5].
Proof.
  intros old d p.
  pose proof (ApplyDiscount_replaces_discount p old d 5 eq_refl eq_refl eq_refl) as H.
  cbv zeta in H. destruct H as (_ & Hdiscount & Hevents & _).
  split; [exact Hdiscount | exact Hevents].
Defined.

(** ** Recording an update *)

Section RecordUpdateFacts.

Variable map_range : gset Field → list Field.
(** A [range] loop visits every key of the map once, in some order. *)
Hypothesis map_range_perm : ∀ s, map_range s ≡ₚ elements s.

Lemma map_range_nil (s : gset Field) : map_range s = [] ↔ s = ∅.
Proof.
  split.
  - intros H. apply leibniz_equiv, elements_empty_inv.
    apply Permutation_nil_r. by rewrite <- map_range_perm, H.
  - intros ->. apply Permutation_nil_r. by rewrite map_range_perm, elements_empty.
Qed.

(** C9: [RecordUpdate] leaves a product with no dirty field as it is;
    on a product with dirty fields it appends exactly one event, an
    [Updated] event of this product at [now] whose changed fields are
    the dirty fields, each listed once, and changes nothing else (the
    dirty set included).  One call appends at most one event. *)
Theorem RecordUpdate_appends_one_Updated (now : time.Time) (p : Product) :
  (dirty (changes p) = ∅ → Product_RecordUpdate map_range now p = p)
  ∧ (dirty (changes p) ≠ ∅ →
     ∃ fields,
       Product_RecordUpdate map_range now p
       = {| id := id p; name := name p; description := description p;
            category := category p; basePrice := basePrice p; discount := discount p;
            status := status p; changes := changes p;
            events := events p ++ [ProductUpdatedEvent (id p) fields now] |}
       ∧ NoDup fields
       ∧ ∀ f, f ∈ fields ↔ f ∈ dirty (changes p)).
Proof.
  unfold Product_RecordUpdate. rewrite foldl_append. simpl. split.
  - intros Hempty. apply map_range_nil in Hempty. by rewrite Hempty.
  - intros Hdirty. exists (map_range (dirty (changes p))).
    split; [|split].
    + destruct (map_range (dirty (changes p))) as [|f fields] eqn:Hrange.
      * by apply map_range_nil in Hrange.
      * reflexivity.
    + rewrite map_range_perm. apply NoDup_elements.
    + intros f. rewrite map_range_perm. apply elem_of_elements.
Qed.

End RecordUpdateFacts.

Lemma RecordUpdate_appends_one_Updated_witness :
  let p := {| id := "p-1"; name := "Laptop"; description := ""; category := "it";
              basePrice := Some {| amount := 100; currency := "USD" |};
              discount := None; status := ProductStatusActive;
              changes := {| dirty := {[ FieldName ]} |}; events := [] |} in
  (∀ s, runtime.range_elements s ≡ₚ elements s)
  ∧ ∃ fields,
      events (Product_RecordUpdate runtime.range_elements 7 p)
      = [ProductUpdatedEvent "p-1" fields 7]
      ∧ ∀ f, f ∈ fields ↔ f = FieldName.
Proof.
  intros p.
  assert (Hperm : ∀ s, runtime.range_elements s ≡ₚ elements s) by reflexivity.
  split; [exact Hperm|].
  destruct (proj2 (RecordUpdate_appends_one_Updated runtime.range_elements Hperm 7 p))
    as (fields & Heq & _ & Hfields).
  - vm_compute. discriminate.
  - exists fields. split.
    + rewrite Heq. reflexivity.
    + intros f. rewrite Hfields. simpl. apply elem_of_singleton.
Defined.

(** ** Money: the errors of the binary operations *)

(** C4, as stated, fails: with an absent second operand each of [Add],
    [Subtract], [IsGreaterThan] and [IsLessThan] returns the
    CurrencyMismatch sentinel itself. *)
Lemma absent_operand_is_CurrencyMismatch :
  ¬ absent_operand_has_own_error (λ m o, error_of (Money_Add m o))
  ∧ ¬ absent_operand_has_own_error (λ m o, error_of (Money_Subtract m o))
  ∧ ¬ absent_operand_has_own_error (λ m o, error_of (Money_IsGreaterThan m o))
  ∧ ¬ absent_operand_has_own_error (λ m o, error_of (Money_IsLessThan m o)).
Proof.
  repeat split; intros [_ Habsent];
    destruct (Habsent {| amount := 100; currency := "USD" |}) as (e & He & Hnot);
    simpl in He; injection He as <-; discriminate Hnot.
Qed.

(** C4, amended: whenever the second operand is absent or of another
    currency, the four operations fail with the error [sameCurrency]
    returns, and that error is CurrencyMismatch for [errors.Is] in both
    cases: the sentinel itself for an absent operand, the sentinel
    wrapped with the two currency codes for differing currencies. *)
Theorem binary_operations_report_CurrencyMismatch (m : Money) (other : option Money) :
  (∀ o, other = Some o → currency m ≠ currency o) →
  ∃ e,
    Money_Add m other = Err e
    ∧ Money_Subtract m other = Err e
    ∧ Money_IsGreaterThan m other = Err e
    ∧ Money_IsLessThan m other = Err e
    ∧ errors_Is e ErrCurrencyMismatch = true
    ∧ (other = None → e = ErrCurrencyMismatch)
    ∧ (∀ o, other = Some o →
            e = fmt_Errorf_w ("currency mismatch: " ++ currency m ++ " vs " ++ currency o)
                  ErrCurrencyMismatch).
Proof.
  intros Hother.
  unfold Money_Add, Money_Subtract, Money_IsGreaterThan, Money_IsLessThan.
  destruct other as [o|]; simpl.
  - rewrite bool_decide_eq_true_2 by (by apply Hother).
    eexists. repeat split; try reflexivity; [done|].
    intros o' [= <-]. reflexivity.
  - exists ErrCurrencyMismatch. repeat split; try reflexivity. done.
Qed.

Lemma binary_operations_report_CurrencyMismatch_witness :
  let usd := {| amount := 100; currency := "USD" |} in
  let eur := {| amount := 100; currency := "EUR" |} in
  Money_Add usd (Some eur)
  = Err (fmt_Errorf_w "currency mismatch: USD vs EUR" ErrCurrencyMismatch)
  ∧ Money_Add usd None = Err ErrCurrencyMismatch.
Proof.
  intros usd eur. split.
  - destruct (binary_operations_report_CurrencyMismatch usd (Some eur))
      as (e & Hadd & _ & _ & _ & _ & _ & He).
    + intros o [= <-]. discriminate.
    + rewrite Hadd. f_equal. exact (He eur eq_refl).
  - destruct (binary_operations_report_CurrencyMismatch usd None)
      as (e & Hadd & _ & _ & _ & _ & He & _).
    + discriminate.
    + rewrite Hadd. f_equal. exact (He eq_refl).
Defined.

(** On operands of one currency the guard passes: the operations never
    reach the read of a [nil] operand. *)
Lemma sameCurrency_passes (m o : Money) :
  currency m = currency o → Money_sameCurrency m (Some o) = None.
Proof. intros H. unfold Money_sameCurrency. by rewrite bool_decide_eq_false_2 by naive_solver. Qed.

(** ** Pricing *)

(** C7: the effective price should be the exactly rounded
    [amount * (1 - pct/100)].  The code computes the product in binary
    floating point before rounding, and the error of [1 - pct/100]
    decides halfway cases the wrong way.  A base price of 100 minor
    units under a discount of 42.5 percent, inside its window: the exact
    value is 57.5 and rounds to 58; the code returns 57.  A base price
    of 5 under 90 percent: exactly 0.5, which rounds to 1; the code
    returns 0.  The currency is the base price's. *)
Theorem EffectivePrice_rounds_float_product (int64_unrepresentable : float → Z) :
  let window pct := Some {| percentage := pct; startsAt := 0; endsAt := 100 |} in
  services.EffectivePrice runtime.ParseFloat_decimal int64_unrepresentable
    (Some {| amount := 100; currency := "USD" |}) (window "42.5") 5
  = Ok {| amount := 57; currency := "USD" |}
  ∧ exact_discounted 100 (425 # 10) = 58
  ∧ services.EffectivePrice runtime.ParseFloat_decimal int64_unrepresentable
      (Some {| amount := 5; currency := "USD" |}) (window "90") 5
    = Ok {| amount := 0; currency := "USD" |}
  ∧ exact_discounted 5 (90 # 1) = 1.
Proof. repeat split; vm_compute; reflexivity. Qed.

Section PricingFacts.

Variable strconv_ParseFloat : string → option float.
Variable int64_unrepresentable : float → Z.

Local Abbreviation EffectivePrice :=
  (services.EffectivePrice strconv_ParseFloat int64_unrepresentable).
Local Abbreviation DiscountAmount :=
  (services.DiscountAmount strconv_ParseFloat int64_unrepresentable).

(** The effective price is the base price when there is no discount or
    the discount is not valid at [now]. *)
Lemma EffectivePrice_without_valid_discount
    (base : Money) (discount : option Discount) (now : time.Time) :
  services.IsDiscounted discount now = false →
  EffectivePrice (Some base) discount now = Ok base.
Proof.
  unfold services.IsDiscounted, services.EffectivePrice.
  destruct discount as [d|]; [|done]. by intros ->.
Qed.

(** An effective price is in the currency of the base price. *)
Lemma EffectivePrice_currency
    (base effective : Money) (discount : option Discount) (now : time.Time) :
  EffectivePrice (Some base) discount now = Ok effective →
  currency effective = currency base.
Proof.
  unfold services.EffectivePrice, Money_ApplyPercentageDiscount.
  destruct discount as [d|]; [|by intros [= <-]].
  destruct (Discount_IsValidAt d now); simpl; [|by intros [= <-]].
  destruct (strconv_ParseFloat (percentage d)) as [pct|]; [|done].
  destruct (_ || _); [done|]. by intros [= <-].
Qed.

Local Arguments services.EffectivePrice : simpl never.


End PricingFacts.


(** ** The commit of the update use case *)

Section CommitFacts.

Variable W : Type.
Variable map_range : gset Field → list Field.

Local Abbreviation Interactor := (updateproduct.UpdateProductInteractor W).
Local Abbreviation Execute_plan := (updateproduct.Execute_plan W map_range).
Local Abbreviation Execute := (updateproduct.Execute W map_range).

Lemma event_descriptors_length (it : Interactor) (events : list DomainEvent) (w : W) :
  length (event_descriptors it events w).1 = length events.
Proof.
  revert w. induction events as [|event events IH]; intros w; simpl; [done|].
  destruct (contract.Event_InsertMut _ event w) as [mut w1].
  specialize (IH w1). destruct (event_descriptors it events w1) as [muts w2].
  simpl in *. by rewrite IH.
Qed.

(** The loop over the pending events adds, in order, the descriptors
    that are not [nil], and nothing for an event that has none. *)
Lemma add_event_muts_descriptors (it : Interactor) (events : list DomainEvent)
    (plan : commitplanner.Plan) (w : W) :
  updateproduct.add_event_muts W it events plan w
  = ({| commitplanner.muts :=
          commitplanner.muts plan ++ omap (λ mut, mut) (event_descriptors it events w).1 |},
     (event_descriptors it events w).2).
Proof.
  unfold updateproduct.add_event_muts.
  revert plan w. induction events as [|event events IH]; intros plan w; simpl.
  - rewrite app_nil_r. by destruct plan.
  - destruct (contract.Event_InsertMut _ event w) as [[mut|] w1]; rewrite IH;
      destruct (event_descriptors it events w1) as [muts w2]; simpl; [|done].
    by rewrite <- app_assoc.
Qed.


End CommitFacts.

(** The run itself: the mutated aggregate has one pending event, the
    plan built for it is empty, and the commit goes through: the applier
    is called and the use case returns no error. *)
Lemma rename_builds_empty_plan :
  updateproduct.Execute_plan _ runtime.range_elements integration_test.interactor
    rename_request initial_world
  = (Ok (renamed_product, commitplanner.NewPlan), world_before_commit).
Proof. vm_compute. reflexivity. Qed.

Lemma rename_commits :
  updateproduct.Execute _ runtime.range_elements integration_test.interactor
    rename_request initial_world
  = (Ok (), integration_test.set_applied true world_before_commit).
Proof. vm_compute. reflexivity. Qed.



(** ** The outbox event repository *)

Section EventRepoFacts.

Variable W : Type.
Variable json_Marshal : repo.payload_struct → result string.
Variable time_Format_RFC3339 : time.Time → string.
Variable uuid_NewString : W → string * W.

Local Abbreviation marshalPayload := (repo.marshalPayload json_Marshal time_Format_RFC3339).
Local Abbreviation InsertMut :=
  (repo.EventRepo_InsertMut W json_Marshal time_Format_RFC3339 uuid_NewString).

(** [InsertMut] answers [nil] exactly when the payload is not
    serialised, and otherwise an INSERT into the outbox table that
    carries the event type, the aggregate id, the payload and the
    pending status. *)
Lemma EventRepo_InsertMut_answer (event : DomainEvent) (w : W) :
  match marshalPayload event with
  | Ok payload =>
      ∃ mut, InsertMut event w = (Some mut, (uuid_NewString w).2)
             ∧ spanner.op mut = spanner.OpInsert
             ∧ spanner.table mut = "outbox_events"
             ∧ spanner.values mut !! "event_id" = Some (spanner.Text (uuid_NewString w).1)
             ∧ spanner.values mut !! "event_type" = Some (spanner.Text (EventName event))
             ∧ spanner.values mut !! "aggregate_id"
               = Some (spanner.Text (repo.aggregateIDOf event))
             ∧ spanner.values mut !! "payload" = Some (spanner.Text payload)
             ∧ spanner.values mut !! "status" = Some (spanner.Text "pending")
  | _ => InsertMut event w = (None, w)
  end.
Proof.
  unfold repo.EventRepo_InsertMut.
  destruct (marshalPayload event) as [payload| |]; [|done..].
  destruct (uuid_NewString w) as [event_id w1]. simpl.
  eexists. split; [reflexivity|]. simpl.
  unfold m_outbox.EventID, m_outbox.EventType, m_outbox.AggregateID, m_outbox.Payload,
    m_outbox.Status, m_outbox.CreatedAt.
  repeat split; by simplify_map_eq.
Qed.

(** An event of a type the package does not define is not serialised. *)
Lemma marshalPayload_foreign (typeName eventName : string) (productID : option string)
    (at_ : time.Time) :
  marshalPayload (ForeignEvent typeName eventName productID at_)
  = Err (errors_New ("unknown event type: " ++ typeName)).
Proof. reflexivity. Qed.

(** For the six event types of the package, serialisation fails only
    if [json.Marshal] does. *)
Lemma marshalPayload_product_event (event : DomainEvent) :
  is_product_event event = true →
  ∃ data, marshalPayload event = json_Marshal data.
Proof.
  destruct event; simpl; try discriminate; intros _; eexists; reflexivity.
Qed.

End EventRepoFacts.

(** ** The events an aggregate queues *)

Lemma constructors_queue_product_events (id name description category : string)
    (basePrice : option Money) (discount : option Discount) (status : ProductStatus)
    (now : time.Time) (p : Product) :
  (NewProduct id name description category basePrice now = Ok p → only_product_events p)
  ∧ (Reconstitute id name description category basePrice discount status = Ok p →
     only_product_events p).
Proof.
  unfold NewProduct, Reconstitute. split.
  - case_bool_decide; [done|]. destruct basePrice; [|done].
    intros [= <-]. solve_only_product_events.
  - repeat (case_bool_decide; simpl; try done); intros [= <-]; solve_only_product_events.
Qed.

Lemma methods_queue_product_events (map_range : gset Field → list Field)
    (p : Product) (text : string) (price : option Money) (d : option Discount)
    (now : time.Time) :
  only_product_events p →
  only_product_events (Product_SetName text p).2
  ∧ only_product_events (Product_SetDescription text p)
  ∧ only_product_events (Product_SetCategory text p)
  ∧ only_product_events (Product_SetBasePrice price p).2
  ∧ only_product_events (Product_Activate now p).2
  ∧ only_product_events (Product_Deactivate now p).2
  ∧ only_product_events (Product_ApplyDiscount d now p).2
  ∧ only_product_events (Product_RemoveDiscount now p).2
  ∧ only_product_events (Product_RecordUpdate map_range now p).
Proof.
  intros Hp. destruct_product p.
  unfold Product_SetName, Product_SetDescription, Product_SetCategory,
    Product_SetBasePrice, Product_Activate, Product_Deactivate, Product_ApplyDiscount,
    Product_RemoveDiscount, Product_RecordUpdate.
  repeat split.
  - repeat case_bool_decide; solve_only_product_events.
  - case_bool_decide; solve_only_product_events.
  - case_bool_decide; solve_only_product_events.
  - destruct price; solve_only_product_events.
  - case_bool_decide; solve_only_product_events.
  - case_bool_decide; [solve_only_product_events|].
    destruct discount; solve_only_product_events.
  - case_bool_decide; [solve_only_product_events|].
    destruct d as [d|]; [|solve_only_product_events].
    destruct (Discount_IsValidAt d now); solve_only_product_events.
  - destruct discount; solve_only_product_events.
  - simpl. destruct (Nat.eqb _ 0); solve_only_product_events.
Qed.

(** * Further properties of the aggregate *)

#[local] Set Warnings "-clear-no-such-hyp".

Section AggregateFacts.

Variable map_range : gset Field → list Field.

Local Abbreviation invoke := (invoke map_range).

(** ** One call *)

(** A call that returns an error leaves the receiver as it was. *)
Lemma invoke_error_keeps_receiver (m : method) (p : Product) :
  is_Some (invoke m p).1 → (invoke m p).2 = p.
Proof.
  method_cases m p; by intros [err [=]].
Qed.

(** The errors a call returns, and when it returns them. *)
Lemma invoke_error_cases (m : method) (p : Product) (err : error) :
  (invoke m p).1 = Some err →
  match m with
  | SetName name => name = "" ∧ err = ErrProductNameRequired
  | SetBasePrice price => price = None ∧ err = ErrProductBasePriceRequired
  | ApplyDiscount discount now =>
      (status p ≠ ProductStatusActive ∧ err = ErrProductNotActive)
      ∨ (status p = ProductStatusActive ∧ discount = None
         ∧ err = errors_New "discount must not be nil")
      ∨ (status p = ProductStatusActive
         ∧ (∃ d, discount = Some d ∧ Discount_IsValidAt d now = false)
         ∧ err = ErrInvalidDiscountPeriod)
  | RemoveDiscount _ => discount p = None ∧ err = ErrNoActiveDiscount
  | _ => False
  end.
Proof.
  method_cases m p; intros [= <-] || intros [=]; try done; eauto 10.
Qed.

(** One call keeps the invariants of the aggregate. *)
Lemma invoke_well_formed (m : method) (p : Product) :
  well_formed p → well_formed (invoke m p).2.
Proof.
  unfold well_formed.
  method_cases m p; intros (Hname & Hprice & Hstatus & Hdiscount);
    repeat split; eauto; try done; try (by intros [? [=]]).
Qed.

(** The marks one call adds: every field it has changed, and no other
    but the base price in [SetBasePrice] and the discount in
    [ApplyDiscount]. *)
Lemma invoke_tracking (m : method) (p : Product) :
  dirty (changes p) ∪ changed_fields p (invoke m p).2 ⊆ dirty (changes (invoke m p).2)
  ∧ dirty (changes (invoke m p).2)
    ⊆ dirty (changes p) ∪ changed_fields p (invoke m p).2
      ∪ match m with
        | SetBasePrice _ => {[ FieldBasePrice ]}
        | ApplyDiscount _ _ => {[ FieldDiscount ]}
        | _ => ∅
        end.
Proof.
  unfold changed_fields.
  method_cases m p; decide_cases; set_solver.
Qed.

(** The events one call appends. *)
Lemma invoke_appends_events (m : method) (p : Product) :
  id (invoke m p).2 = id p
  ∧ ∃ added,
      events (invoke m p).2 = (events p ++ added)%list
      ∧ (length added ≤ 2)%nat
      ∧ Forall (λ e, is_product_event e = true
                     ∧ event_product e = Some (id p)
                     ∧ Some (OccurredAt e) = method_time m) added.
Proof.
  method_cases m p; (split; [reflexivity|]);
    first
      [ by (exists []; rewrite app_nil_r; repeat split; [simpl; lia | constructor])
      | eexists [_]; repeat split; [simpl; lia | repeat constructor]
      | eexists [_; _]; rewrite <- app_assoc; repeat split; [simpl; lia | repeat constructor] ].
Qed.

(** What every call keeps, every sequence of calls keeps. *)
Lemma invoke_all_keeps (P : Product → Prop) :
  (∀ m p, P p → P (invoke m p).2) →
  ∀ ms p, P p → P (invoke_all map_range ms p).
Proof.
  intros Hstep ms. unfold invoke_all.
  induction ms as [|m ms IH]; intros p Hp; simpl; [done|].
  apply IH, Hstep, Hp.
Qed.

(** A value that differs between the first and the last of three states
    differs between two neighbours. *)
Lemma changed_mark_between {A : Type} `{EqDecision A} (x y z : A) (f : Field) :
  (if decide (x = z) then (∅ : gset Field) else {[ f ]})
  ⊆ (if decide (x = y) then ∅ else {[ f ]}) ∪ (if decide (y = z) then ∅ else {[ f ]}).
Proof.
  repeat case_decide; set_solver.
Qed.

Lemma changed_fields_between (p q r : Product) :
  changed_fields p r ⊆ changed_fields p q ∪ changed_fields q r.
Proof.
  unfold changed_fields.
  pose proof (changed_mark_between (name p) (name q) (name r) FieldName).
  pose proof (changed_mark_between (description p) (description q) (description r)
                FieldDescription).
  pose proof (changed_mark_between (category p) (category q) (category r) FieldCategory).
  pose proof (changed_mark_between (basePrice p) (basePrice q) (basePrice r)
                FieldBasePrice).
  pose proof (changed_mark_between (status p) (status q) (status r) FieldStatus).
  pose proof (changed_mark_between (discount p) (discount q) (discount r) FieldDiscount).
  set_solver.
Qed.

(** ** Calls and sequences of calls *)

(** X1: a call that returns an error has changed nothing: the receiver
    is as it was; and [Activate] and [Deactivate] (like the setters of
    description and category and [RecordUpdate]) never return one. *)
Theorem failed_call_changes_nothing (m : method) (p : Product) (err : error) :
  (invoke m p).1 = Some err →
  (invoke m p).2 = p
  ∧ match m with
    | SetName name => name = "" ∧ err = ErrProductNameRequired
    | SetBasePrice price => price = None ∧ err = ErrProductBasePriceRequired
    | ApplyDiscount discount now =>
        (status p ≠ ProductStatusActive ∧ err = ErrProductNotActive)
        ∨ (status p = ProductStatusActive ∧ discount = None
           ∧ err = errors_New "discount must not be nil")
        ∨ (status p = ProductStatusActive
           ∧ (∃ d, discount = Some d ∧ Discount_IsValidAt d now = false)
           ∧ err = ErrInvalidDiscountPeriod)
    | RemoveDiscount _ => discount p = None ∧ err = ErrNoActiveDiscount
    | _ => False
    end.
Proof.
  intros Herr. split.
  - apply invoke_error_keeps_receiver. by exists err.
  - by apply invoke_error_cases.
Qed.

(** X2: every sequence of calls keeps the invariants of the aggregate,
    whether the calls fail or not: the name stays non-empty, the base
    price present, the status one of the two, and a discount is held
    only while Active. *)
Theorem calls_keep_invariants (ms : list method) (p : Product) :
  well_formed p → well_formed (invoke_all map_range ms p).
Proof.
  apply invoke_all_keeps, invoke_well_formed.
Qed.

(** X3: no change goes untracked: every tracked field in which a
    product differs from what it was before a sequence of calls is
    marked dirty after it, and no mark is ever taken away. *)
Theorem changes_are_tracked (ms : list method) (p : Product) :
  dirty (changes p) ∪ changed_fields p (invoke_all map_range ms p)
  ⊆ dirty (changes (invoke_all map_range ms p)).
Proof.
  unfold invoke_all. revert p.
  induction ms as [|m ms IH]; intros p; simpl.
  - unfold changed_fields. decide_cases. set_solver.
  - specialize (IH (invoke m p).2).
    pose proof (proj1 (invoke_tracking m p)) as Hstep.
    pose proof (changed_fields_between p (invoke m p).2
                  (foldl (λ p m, (invoke m p).2) (invoke m p).2 ms)) as Hbetween.
    set_solver.
Qed.

(** X4: a call marks a field dirty only when it has changed its value,
    with two exceptions: [SetBasePrice] marks the base price whenever it
    succeeds, and [ApplyDiscount] marks the discount whenever it
    succeeds. *)
Theorem dirty_marks_are_changes (m : method) (p : Product) :
  dirty (changes (invoke m p).2)
  ⊆ dirty (changes p) ∪ changed_fields p (invoke m p).2
    ∪ match m with
      | SetBasePrice _ => {[ FieldBasePrice ]}
      | ApplyDiscount _ _ => {[ FieldDiscount ]}
      | _ => ∅
      end.
Proof.
  apply invoke_tracking.
Qed.

(** X5: the queue of events is append-only.  A sequence of calls leaves
    the events already queued in place and adds at most two for each
    call; each event added is of a type of the package, is about this
    product, and occurred at the time one of the calls was given; the
    id of the product never changes. *)
Theorem calls_append_own_events (ms : list method) (p : Product) :
  id (invoke_all map_range ms p) = id p
  ∧ ∃ added,
      events (invoke_all map_range ms p) = (events p ++ added)%list
      ∧ (length added ≤ 2 * length ms)%nat
      ∧ Forall (λ e, is_product_event e = true
                     ∧ event_product e = Some (id p)
                     ∧ ∃ m, m ∈ ms ∧ Some (OccurredAt e) = method_time m) added.
Proof.
  unfold invoke_all. revert p.
  induction ms as [|m ms IH]; intros p; simpl.
  - split; [done|]. exists []. rewrite app_nil_r. repeat split; [simpl; lia | constructor].
  - destruct (IH (invoke m p).2) as (Hid & later & Hlater & Hcount & Hown).
    destruct (invoke_appends_events m p) as (Hid' & added & Hadded & Hcount' & Hown').
    split; [congruence|].
    exists (added ++ later)%list. split; [by rewrite Hlater, Hadded, <- app_assoc|].
    split; [rewrite length_app; simpl; lia|].
    apply Forall_app. split.
    + eapply Forall_impl; [exact Hown'|]. simpl. intros e (? & ? & ?).
      repeat split; [done..|]. exists m. split; [left | done].
    + eapply Forall_impl; [exact Hown|]. simpl. intros e (? & ? & m' & ? & ?).
      repeat split; [done | congruence |]. exists m'. split; [by right | done].
Qed.

(** X6: the life of a product.  Whatever business methods are called on
    a product made by [NewProduct], in whatever order and whether they
    fail or not, the product keeps its invariants and the id it was
    given, its queue starts with its [Created] event, and every event
    queued after it is an event of the package about this product. *)
Theorem created_product_lifecycle
    (uuid name description category : string) (basePrice : option Money)
    (now : time.Time) (p : Product) (ms : list method) :
  NewProduct uuid name description category basePrice now = Ok p →
  let q := invoke_all map_range ms p in
  well_formed q
  ∧ id q = uuid
  ∧ ∃ later,
      events q
      = ProductCreatedEvent uuid name category basePrice ProductStatusActive now :: later
      ∧ Forall (λ e, is_product_event e = true ∧ event_product e = Some uuid) later.
Proof.
  intros Hnew.
  apply (invoke_all_keeps (λ q,
    well_formed q ∧ id q = uuid
    ∧ ∃ later,
        events q
        = ProductCreatedEvent uuid name category basePrice ProductStatusActive now :: later
        ∧ Forall (λ e, is_product_event e = true ∧ event_product e = Some uuid) later)).
  - intros m q (Hwf & Hid & later & Hevents & Hlater).
    destruct (invoke_appends_events m q) as (Hid' & added & Hadded & _ & Hown).
    split; [by apply invoke_well_formed|].
    split; [congruence|].
    exists (later ++ added)%list. split.
    + by rewrite Hadded, Hevents.
    + apply Forall_app. split; [done|].
      eapply Forall_impl; [exact Hown|]. simpl. intros e (? & ? & _). by subst.
  - pose proof (NewProduct_validates uuid name description category basePrice now) as H.
    rewrite Hnew in H. destruct H as (Hname & Hname' & Hprice & Hprice' & Hstatus & Hevents & _).
    assert (Hshape : id p = uuid ∧ discount p = None).
    { revert Hnew. unfold NewProduct. case_bool_decide; [done|].
      destruct basePrice; [|done]. by intros [= <-]. }
    destruct Hshape as [Hid Hdiscount].
    split; [|split; [done|]].
    + unfold well_formed. rewrite Hname', Hprice', Hstatus, Hdiscount.
      repeat split; eauto.
    + exists []. split; [done | constructor].
Qed.

(** X7: [Activate] on a product that is not Active makes it Active,
    marks the status dirty and appends one [Activated] event, touching
    nothing else (a discount is neither restored nor removed); on an
    Active product, as after the call, it does nothing. *)
Theorem Activate_then_idempotent (p : Product) (now now' : time.Time) :
  status p ≠ ProductStatusActive →
  let p1 := (Product_Activate now p).2 in
  (Product_Activate now p).1 = None
  ∧ status p1 = ProductStatusActive
  ∧ events p1 = (events p ++ [ProductActivatedEvent (id p) now])%list
  ∧ dirty (changes p1) = {[ FieldStatus ]} ∪ dirty (changes p)
  ∧ (id p1, name p1, description p1, category p1, basePrice p1, discount p1)
    = (id p, name p, description p, category p, basePrice p, discount p)
  ∧ Product_Activate now' p1 = (None, p1).
Proof.
  intros Hstatus. destruct_product p. unfold Product_Activate.
  rewrite bool_decide_eq_false_2 by done. unfold_assignments.
  rewrite bool_decide_eq_true_2 by reflexivity. repeat split.
Qed.

(** X8: [RemoveDiscount] on a product holding a discount clears it,
    marks the discount dirty and appends one [DiscountRemoved] event,
    touching nothing else and whatever the status is; called again, it
    fails with the no-active-discount error and changes nothing. *)
Theorem RemoveDiscount_then_fails (p : Product) (d : Discount) (now now' : time.Time) :
  discount p = Some d →
  let p1 := (Product_RemoveDiscount now p).2 in
  (Product_RemoveDiscount now p).1 = None
  ∧ discount p1 = None
  ∧ events p1 = (events p ++ [DiscountRemovedEvent (id p) now])%list
  ∧ dirty (changes p1) = {[ FieldDiscount ]} ∪ dirty (changes p)
  ∧ (id p1, name p1, description p1, category p1, basePrice p1, status p1)
    = (id p, name p, description p, category p, basePrice p, status p)
  ∧ Product_RemoveDiscount now' p1 = (Some ErrNoActiveDiscount, p1).
Proof.
  intros Hdiscount. destruct_product p. subst. unfold Product_RemoveDiscount.
  unfold_assignments. repeat split.
Qed.

End AggregateFacts.

Lemma failed_call_changes_nothing_witness :
  (invoke runtime.range_elements (SetName "") laptop).2 = laptop
  ∧ (invoke runtime.range_elements (RemoveDiscount 5) laptop).2 = laptop.
Proof.
  split.
  - exact (proj1 (failed_call_changes_nothing runtime.range_elements (SetName "") laptop
                    ErrProductNameRequired eq_refl)).
  - exact (proj1 (failed_call_changes_nothing runtime.range_elements (RemoveDiscount 5)
                    laptop ErrNoActiveDiscount eq_refl)).
Defined.

Lemma calls_keep_invariants_witness :
  well_formed
    (invoke_all runtime.range_elements [Deactivate 5; ApplyDiscount None 6; SetName "Desktop"]
       laptop).
Proof.
  apply calls_keep_invariants. unfold well_formed. simpl.
  split; [discriminate|]. split; [by eexists|]. split; [by left|]. by intros [? [=]].
Defined.

Lemma created_product_lifecycle_witness :
  ∃ p, NewProduct "p-1" "Laptop" "" "it" (Some {| amount := 100; currency := "USD" |}) 3
       = Ok p
       ∧ well_formed
           (invoke_all runtime.range_elements
              [SetName "Desktop"; RecordUpdate 4; Deactivate 5; ApplyDiscount None 6] p).
Proof.
  eexists. split; [reflexivity|].
  exact (proj1 (created_product_lifecycle runtime.range_elements "p-1" "Laptop" "" "it"
                  (Some {| amount := 100; currency := "USD" |}) 3 _
                  [SetName "Desktop"; RecordUpdate 4; Deactivate 5; ApplyDiscount None 6]
                  eq_refl)).
Defined.

Lemma Activate_then_idempotent_witness :
  let p := (Product_Deactivate 5 laptop).2 in
  status (Product_Activate 6 p).2 = ProductStatusActive
  ∧ Product_Activate 7 (Product_Activate 6 p).2 = (None, (Product_Activate 6 p).2).
Proof.
  intros p.
  pose proof (Activate_then_idempotent p 6 7 ltac:(discriminate)) as H.
  cbv zeta in H. destruct H as (_ & Hstatus & _ & _ & _ & Hagain).
  split; [exact Hstatus | exact Hagain].
Defined.

Lemma RemoveDiscount_then_fails_witness :
  let d := {| percentage := "10"; startsAt := 0; endsAt := 100 |} in
  let p := (Product_ApplyDiscount (Some d) 5 laptop).2 in
  discount (Product_RemoveDiscount 6 p).2 = None
  ∧ Product_RemoveDiscount 7 (Product_RemoveDiscount 6 p).2
    = (Some ErrNoActiveDiscount, (Product_RemoveDiscount 6 p).2).
Proof.
  intros d p.
  pose proof (RemoveDiscount_then_fails p d 6 7 eq_refl) as H.
  cbv zeta in H. destruct H as (_ & Hdiscount & _ & _ & _ & Hagain).
  split; [exact Hdiscount | exact Hagain].
Defined.

(** * Further properties of the value objects *)

(** ** Money *)

Lemma wrap64_add_sub (a b : Z) : in_int64 a = true → wrap64 (wrap64 (a + b) - b) = a.
Proof.
  intros Ha. rewrite <- (wrap64_id a Ha) at 2. unfold wrap64. f_equal.
  replace ((a + b + 2 ^ 63) mod 2 ^ 64 - 2 ^ 63 - b + 2 ^ 63)
    with ((a + b + 2 ^ 63) mod 2 ^ 64 - b) by lia.
  rewrite Zminus_mod_idemp_l. f_equal. lia.
Qed.

(** X9: what [NewMoney] accepts is exactly the valid amounts, returned
    as they are: a negative amount is refused first, then a currency
    code that is not three bytes long. *)
Theorem NewMoney_accepts_valid (amount : Z) (currency : string) :
  int64_min ≤ amount ≤ int64_max →
  match NewMoney amount currency with
  | Ok m => m = {| amount := amount; currency := currency |} ∧ valid_money m
  | Err e => (amount < 0 ∧ e = ErrNegativeAmount)
             ∨ (0 ≤ amount ∧ String.length currency ≠ 3%nat ∧ e = ErrInvalidCurrency)
  | Panic _ => False
  end.
Proof.
  intros Hrange. unfold NewMoney, valid_money.
  destruct (Z.ltb_spec amount 0); [by left|].
  destruct (Z.eqb_spec (Z.of_nat (String.length currency)) 3); simpl.
  - split; [done|]. split; lia.
  - right. repeat split; [done|lia].
Qed.

Lemma NewMoney_accepts_valid_witness :
  valid_money {| amount := 100; currency := "USD" |}
  ∧ NewMoney 100 "USD" = Ok {| amount := 100; currency := "USD" |}.
Proof.
  assert (Hrange : int64_min ≤ 100 ≤ int64_max) by (vm_compute; split; discriminate).
  pose proof (NewMoney_accepts_valid 100 "USD" Hrange) as H.
  simpl in H. split; [exact (proj2 H) | reflexivity].
Defined.

(** X10: [Add] does not guard against overflow.  On two valid amounts
    of one currency it returns their sum in that currency when the sum
    fits an [int64]; when it does not, it still succeeds, and returns
    the negative amount the sum wraps to. *)
Theorem Add_sums_or_wraps (m o : Money) :
  valid_money m → valid_money o → currency m = currency o →
  ∃ r, Money_Add m (Some o) = Ok r
       ∧ currency r = currency m
       ∧ (amount m + amount o ≤ int64_max →
          amount r = amount m + amount o ∧ valid_money r)
       ∧ (int64_max < amount m + amount o →
          amount r = amount m + amount o - 2 ^ 64 ∧ amount r < 0).
Proof.
  intros [Hm Hmc] [Ho _] Hcur. unfold Money_Add.
  rewrite sameCurrency_passes by done. simpl. eexists. split; [reflexivity|].
  simpl. split; [done|]. unfold valid_money, wrap64, int64_max in *. simpl. split.
  - intros Hfits. rewrite Z.mod_small by lia. repeat split; lia.
  - intros Hover.
    replace (amount m + amount o + 2 ^ 63) with (amount m + amount o - 2 ^ 63 + 1 * 2 ^ 64)
      by lia.
    rewrite Z_mod_plus_full, Z.mod_small by lia. lia.
Qed.

Lemma Add_sums_or_wraps_witness :
  ∃ r, Money_Add {| amount := int64_max; currency := "USD" |}
         (Some {| amount := 1; currency := "USD" |}) = Ok r
       ∧ amount r < 0.
Proof.
  assert (Hvalid : ∀ a, (0 <=? a) && (a <=? int64_max) = true →
                        valid_money {| amount := a; currency := "USD" |}).
  { intros a Ha. apply andb_true_iff in Ha as [H1 H2]. apply Z.leb_le in H1, H2.
    by split. }
  destruct (Add_sums_or_wraps {| amount := int64_max; currency := "USD" |}
              {| amount := 1; currency := "USD" |}
              (Hvalid int64_max eq_refl) (Hvalid 1 eq_refl) eq_refl)
    as (r & Hadd & _ & _ & Hwraps).
  exists r. split; [exact Hadd|]. apply Hwraps. reflexivity.
Defined.

(** X11: [Subtract] undoes [Add]: for a valid amount [m] and any amount
    [o] of the same currency, subtracting [o] from the sum of [m] and
    [o] gives [m] back, even when the sum has wrapped around. *)
Theorem Subtract_undoes_Add (m o sum : Money) :
  valid_money m → in_int64 (amount o) = true →
  Money_Add m (Some o) = Ok sum →
  Money_Subtract sum (Some o) = Ok m.
Proof.
  intros [Hm _] Ho. unfold Money_Add, Money_Subtract, Money_sameCurrency.
  case_bool_decide as Hcur; simpl; [intros [=]|]. intros [= <-]. simpl.
  rewrite bool_decide_eq_false_2 by (by intros Hne). simpl.
  rewrite wrap64_add_sub
    by (unfold in_int64, int64_min, int64_max in *; apply andb_true_iff;
        split; apply Z.leb_le; lia).
  rewrite (proj2 (Z.ltb_ge _ _)) by lia. by destruct m.
Qed.

Lemma Subtract_undoes_Add_witness :
  let m := {| amount := int64_max; currency := "USD" |} in
  let o := {| amount := 1; currency := "USD" |} in
  Money_Subtract {| amount := int64_min; currency := "USD" |} (Some o) = Ok m.
Proof.
  intros m o.
  refine (Subtract_undoes_Add m o {| amount := int64_min; currency := "USD" |} _ eq_refl
            eq_refl).
  split; [|reflexivity]. vm_compute. split; discriminate.
Defined.

(** X12: [Subtract] never returns a negative amount: on two valid
    amounts of one currency it returns their difference in that
    currency, a valid amount, when the second does not exceed the first,
    and fails with the negative-amount error when it does. *)
Theorem Subtract_difference_or_error (m o : Money) :
  valid_money m → valid_money o → currency m = currency o →
  Money_Subtract m (Some o)
  = if amount o <=? amount m
    then Ok {| amount := amount m - amount o; currency := currency m |}
    else Err ErrNegativeAmount.
Proof.
  intros [Hm _] [Ho _] Hcur. unfold Money_Subtract.
  rewrite sameCurrency_passes by done. simpl.
  rewrite wrap64_id
    by (unfold in_int64, int64_min, int64_max in *; apply andb_true_iff;
        split; apply Z.leb_le; lia).
  destruct (Z.leb_spec (amount o) (amount m)).
  - by rewrite (proj2 (Z.ltb_ge _ _)) by lia.
  - by rewrite (proj2 (Z.ltb_lt _ _)) by lia.
Qed.

Lemma Subtract_difference_or_error_witness :
  let usd a := {| amount := a; currency := "USD" |} in
  Money_Subtract (usd 100) (Some (usd 30)) = Ok (usd 70)
  ∧ Money_Subtract (usd 30) (Some (usd 100)) = Err ErrNegativeAmount.
Proof.
  intros usd.
  assert (Hvalid : ∀ a, (0 <=? a) && (a <=? int64_max) = true → valid_money (usd a)).
  { intros a Ha. apply andb_true_iff in Ha as [H1 H2]. apply Z.leb_le in H1, H2.
    by split. }
  split.
  - exact (Subtract_difference_or_error (usd 100) (usd 30)
             (Hvalid 100 eq_refl) (Hvalid 30 eq_refl) eq_refl).
  - exact (Subtract_difference_or_error (usd 30) (usd 100)
             (Hvalid 30 eq_refl) (Hvalid 100 eq_refl) eq_refl).
Defined.

(** X13: on two amounts of one currency the comparisons succeed and
    exactly one of greater-than, less-than and [Equals] holds; and
    greater-than is less-than with the operands exchanged. *)
Theorem comparisons_trichotomy (m o : Money) :
  currency m = currency o →
  ∃ gt lt,
    Money_IsGreaterThan m (Some o) = Ok gt
    ∧ Money_IsLessThan m (Some o) = Ok lt
    ∧ Money_IsLessThan o (Some m) = Ok gt
    ∧ ((gt, lt, Money_Equals m (Some o)) = (true, false, false)
       ∨ (gt, lt, Money_Equals m (Some o)) = (false, true, false)
       ∨ (gt, lt, Money_Equals m (Some o)) = (false, false, true)).
Proof.
  intros Hcur. unfold Money_IsGreaterThan, Money_IsLessThan, Money_Equals.
  rewrite !sameCurrency_passes by done.
  eexists _, _. repeat split.
  rewrite (bool_decide_eq_true_2 _ Hcur), andb_true_r.
  destruct (Z.ltb_spec (amount o) (amount m)), (Z.ltb_spec (amount m) (amount o)),
    (Z.eqb_spec (amount m) (amount o)); auto; lia.
Qed.

Lemma comparisons_trichotomy_witness :
  let usd a := {| amount := a; currency := "USD" |} in
  ∃ gt lt, Money_IsGreaterThan (usd 100) (Some (usd 30)) = Ok gt
           ∧ Money_IsLessThan (usd 100) (Some (usd 30)) = Ok lt
           ∧ Money_IsLessThan (usd 30) (Some (usd 100)) = Ok gt.
Proof.
  intros usd.
  destruct (comparisons_trichotomy (usd 100) (usd 30) eq_refl)
    as (gt & lt & Hgt & Hlt & Hswap & _).
  exists gt, lt. split; [exact Hgt|]. split; [exact Hlt | exact Hswap].
Defined.

(** ** Discount and pricing *)

Section DiscountFacts.

Variable strconv_ParseFloat : string → option float.
Variable int64_unrepresentable : float → Z.

Local Abbreviation NewDiscount := (NewDiscount strconv_ParseFloat).
Local Abbreviation EffectivePrice :=
  (services.EffectivePrice strconv_ParseFloat int64_unrepresentable).
Local Abbreviation DiscountAmount :=
  (services.DiscountAmount strconv_ParseFloat int64_unrepresentable).

(** What [NewDiscount] accepts. *)
Lemma NewDiscount_accepted (percentage : string) (startsAt endsAt : time.Time)
    (d : Discount) :
  NewDiscount percentage startsAt endsAt = Ok d →
  d = {| percentage := percentage; startsAt := startsAt; endsAt := endsAt |}
  ∧ startsAt < endsAt
  ∧ ∃ pct, strconv_ParseFloat percentage = Some pct
           ∧ PrimFloat.ltb pct 0 || PrimFloat.ltb 100 pct = false.
Proof.
  unfold domain.NewDiscount, time.After.
  destruct (strconv_ParseFloat percentage) as [pct|]; [|done].
  destruct (_ || _) eqn:Hrange; [done|].
  destruct (Z.ltb_spec startsAt endsAt); simpl; [|done].
  intros [= <-]. eauto.
Qed.

(** X14: a discount [NewDiscount] returns has a window that is not
    empty: it is valid at its start, valid exactly at the times from its
    start up to, not including, its end, and at any time it is one and
    only one of upcoming, valid and expired. *)
Theorem NewDiscount_window (percentage : string) (startsAt endsAt now : time.Time)
    (d : Discount) :
  NewDiscount percentage startsAt endsAt = Ok d →
  Discount_IsValidAt d startsAt = true
  ∧ (Discount_IsValidAt d now = true ↔ startsAt ≤ now < endsAt)
  ∧ ((Discount_IsUpcoming d now, Discount_IsValidAt d now, Discount_IsExpired d now)
     = (true, false, false)
     ∨ (Discount_IsUpcoming d now, Discount_IsValidAt d now, Discount_IsExpired d now)
       = (false, true, false)
     ∨ (Discount_IsUpcoming d now, Discount_IsValidAt d now, Discount_IsExpired d now)
       = (false, false, true)).
Proof.
  intros Hnew. apply NewDiscount_accepted in Hnew as (-> & Hperiod & _).
  unfold Discount_IsValidAt, Discount_IsUpcoming, Discount_IsExpired, time.Before. simpl.
  destruct (Z.ltb_spec startsAt startsAt), (Z.ltb_spec startsAt endsAt),
    (Z.ltb_spec now startsAt), (Z.ltb_spec now endsAt); simpl;
    (split; [done || lia|]); (split; [split; [done || lia | done || lia]|]); auto; lia.
Qed.

(** X15: the effective price of a present base price under a discount
    made by [NewDiscount] is always defined, at any time: the range
    test of the price computation cannot fail on a percentage that
    [NewDiscount] has accepted; and it is in the currency of the base
    price. *)
Theorem EffectivePrice_of_NewDiscount (percentage : string)
    (startsAt endsAt now : time.Time) (d : Discount) (base : Money) :
  NewDiscount percentage startsAt endsAt = Ok d →
  ∃ price, EffectivePrice (Some base) (Some d) now = Ok price
           ∧ currency price = currency base.
Proof.
  intros Hnew. apply NewDiscount_accepted in Hnew as (-> & _ & pct & Hparse & Hrange).
  unfold services.EffectivePrice, Money_ApplyPercentageDiscount. simpl.
  destruct (negb _); [by eexists|].
  rewrite Hparse, Hrange. by eexists.
Qed.

Local Arguments services.EffectivePrice : simpl never.

(** X16: what is paid and what is saved add up to the base price:
    whenever the effective price lies between zero and a valid base
    price, [DiscountAmount] succeeds and [Add] of the effective price
    and the discount amount is the base price. *)
Theorem effective_plus_saved_is_base (base effective : Money)
    (discount : option Discount) (now : time.Time) :
  valid_money base →
  EffectivePrice (Some base) discount now = Ok effective →
  0 ≤ amount effective ≤ amount base →
  ∃ saved, DiscountAmount (Some base) discount now = Ok saved
           ∧ valid_money saved
           ∧ Money_Add effective (Some saved) = Ok base.
Proof.
  intros [Hbase Hcurrency] Heffective Hle.
  pose proof (EffectivePrice_currency _ _ _ _ _ _ Heffective) as Hcur.
  assert (Hin : ∀ z, 0 ≤ z ≤ amount base → wrap64 z = z).
  { intros z Hz. apply wrap64_id. unfold in_int64, int64_min, int64_max in *.
    apply andb_true_iff. split; apply Z.leb_le; lia. }
  assert (Hsum : Money_Add effective
                   (Some {| amount := amount base - amount effective;
                            currency := currency base |}) = Ok base).
  { unfold Money_Add. rewrite sameCurrency_passes by done. simpl.
    replace (amount effective + (amount base - amount effective)) with (amount base)
      by lia.
    rewrite Hin by lia. rewrite Hcur. by destruct base. }
  unfold services.DiscountAmount, NewMoney. rewrite Hcurrency. simpl.
  destruct discount as [d|].
  - destruct (Discount_IsValidAt d now) eqn:Hvalid; simpl.
    + rewrite Heffective. simpl. unfold Money_Subtract.
      rewrite sameCurrency_passes by done. simpl. rewrite Hin by lia.
      rewrite (proj2 (Z.ltb_ge _ _)) by lia.
      eexists. split; [reflexivity|]. split; [|done].
      unfold valid_money. simpl. split; [lia | done].
    + revert Heffective Hsum. unfold services.EffectivePrice. rewrite Hvalid. simpl.
      intros [= <-]. rewrite Z.sub_diag. intros Hsum.
      eexists. split; [reflexivity|]. split; [|done].
      unfold valid_money, int64_max. simpl. split; [lia | done].
  - revert Heffective Hsum. unfold services.EffectivePrice.
    intros [= <-]. rewrite Z.sub_diag. intros Hsum.
    eexists. split; [reflexivity|]. split; [|done].
    unfold valid_money, int64_max. simpl. split; [lia | done].
Qed.

End DiscountFacts.

Lemma NewDiscount_window_witness :
  ∃ d, NewDiscount runtime.ParseFloat_decimal "12.5" 10 20 = Ok d
       ∧ Discount_IsValidAt d 10 = true
       ∧ (Discount_IsValidAt d 20 = true ↔ 10 ≤ 20 < 20).
Proof.
  eexists. split; [vm_compute; reflexivity|].
  pose proof (NewDiscount_window runtime.ParseFloat_decimal "12.5" 10 20 20 _
                ltac:(vm_compute; reflexivity)) as (Hstart & Hiff & _).
  split; [exact Hstart | exact Hiff].
Defined.

Lemma EffectivePrice_of_NewDiscount_witness :
  ∃ d price,
    NewDiscount runtime.ParseFloat_decimal "10" 0 100 = Ok d
    ∧ services.EffectivePrice runtime.ParseFloat_decimal runtime.int64_indefinite
        (Some {| amount := 100; currency := "USD" |}) (Some d) 5 = Ok price.
Proof.
  eexists.
  destruct (EffectivePrice_of_NewDiscount runtime.ParseFloat_decimal
              runtime.int64_indefinite "10" 0 100 5 _ {| amount := 100; currency := "USD" |}
              ltac:(vm_compute; reflexivity)) as (price & Hprice & _).
  exists price. split; [vm_compute; reflexivity | exact Hprice].
Defined.

Lemma EffectivePrice_without_valid_discount_witness :
  services.EffectivePrice runtime.ParseFloat_decimal runtime.int64_indefinite
    (Some {| amount := 100; currency := "USD" |})
    (Some {| percentage := "10"; startsAt := 0; endsAt := 100 |}) 100
  = Ok {| amount := 100; currency := "USD" |}.
Proof.
  exact (EffectivePrice_without_valid_discount runtime.ParseFloat_decimal
           runtime.int64_indefinite {| amount := 100; currency := "USD" |}
           (Some {| percentage := "10"; startsAt := 0; endsAt := 100 |}) 100 eq_refl).
Defined.

Lemma effective_plus_saved_is_base_witness :
  let base := {| amount := 100; currency := "USD" |} in
  let d := Some {| percentage := "10"; startsAt := 0; endsAt := 100 |} in
  ∃ saved,
    services.DiscountAmount runtime.ParseFloat_decimal runtime.int64_indefinite
      (Some base) d 5 = Ok saved
    ∧ Money_Add {| amount := 90; currency := "USD" |} (Some saved) = Ok base.
Proof.
  intros base d.
  destruct (effective_plus_saved_is_base runtime.ParseFloat_decimal
              runtime.int64_indefinite base {| amount := 90; currency := "USD" |} d 5)
    as (saved & Hsaved & _ & Hsum).
  - split; [vm_compute; split; discriminate | reflexivity].
  - vm_compute. reflexivity.
  - vm_compute. split; discriminate.
  - exists saved. split; [exact Hsaved | exact Hsum].
Defined.

(** * Properties of the product repository *)

Section ProductRepoFacts.

Variable strconv_ParseFloat : string → option float.

Local Abbreviation UpdateMut := (product_repo.ProductRepo_UpdateMut strconv_ParseFloat).
Local Abbreviation InsertMut := (product_repo.ProductRepo_InsertMut strconv_ParseFloat).

(** Splits on what [UpdateMut] tests: the six marks, and the base price
    and the discount where it reads them; then computes the size of the
    map built. *)
Ltac update_cases p :=
  destruct_product p;
  unfold product_repo.ProductRepo_UpdateMut, product_repo.discount_columns,
    Changes_Dirty;
  simpl;
  repeat case_bool_decide;
  repeat match goal with
         | |- context [match ?x with Some _ => _ | None => _ end] => destruct x
         end;
  simpl;
  repeat match goal with
         | |- context [size ?m] =>
             let n := eval vm_compute in (size m) in
             change (size m) with n
         end;
  simpl.

(** [UpdateMut] answers [nil] exactly when none of the six tracked
    fields is marked dirty. *)
Lemma UpdateMut_nil_clean (p : Product) :
  UpdateMut p = Ok None ↔ dirty (changes p) ## tracked_fields.
Proof.
  unfold tracked_fields.
  update_cases p; (split; [try done; intros _ | try done; intros Hclean]); set_solver.
Qed.

(** X17: the UPDATE that [UpdateMut] builds is for the products table
    and writes the id, the commit timestamp as update time, and for
    each tracked field its columns exactly when the field is marked
    dirty, with the value the product has now; a dirty discount that is
    absent is written as three NULLs; and it never writes the creation
    or archival time. *)
Theorem UpdateMut_writes_dirty_columns (p : Product) (mut : product_repo.RowMutation) :
  UpdateMut p = Ok (Some mut) →
  let c := changes p in
  let column name := product_repo.row_values mut !! name in
  let when (f : Field) (v : option product_repo.any) :=
    if Changes_Dirty c f then v else None in
  product_repo.row_op mut = spanner.OpUpdate
  ∧ product_repo.row_table mut = "products"
  ∧ column "product_id" = Some (product_repo.AnyString (id p))
  ∧ column "updated_at" = Some product_repo.AnyCommitTimestamp
  ∧ column "name" = when FieldName (Some (product_repo.AnyString (name p)))
  ∧ column "description"
    = when FieldDescription (Some (product_repo.AnyString (description p)))
  ∧ column "category" = when FieldCategory (Some (product_repo.AnyString (category p)))
  ∧ column "base_price_numerator"
    = when FieldBasePrice (product_repo.AnyInt64 <$> (amount <$> basePrice p))
  ∧ column "base_price_denominator" = when FieldBasePrice (Some (product_repo.AnyInt64 1))
  ∧ column "status" = when FieldStatus (Some (product_repo.AnyString (status p)))
  ∧ column "discount_percent"
    = when FieldDiscount
        (Some (match discount p with
               | Some d =>
                   product_repo.AnyRat
                     (product_repo.Rat_SetFloat64
                        (Discount_PercentageFloat64 strconv_ParseFloat d))
               | None => product_repo.AnyNil
               end))
  ∧ column "discount_start_date"
    = when FieldDiscount
        (Some (match discount p with
               | Some d => product_repo.AnyTime (startsAt d)
               | None => product_repo.AnyNil
               end))
  ∧ column "discount_end_date"
    = when FieldDiscount
        (Some (match discount p with
               | Some d => product_repo.AnyTime (endsAt d)
               | None => product_repo.AnyNil
               end))
  ∧ column "created_at" = None
  ∧ column "archived_at" = None.
Proof.
  destruct_product p.
  unfold product_repo.ProductRepo_UpdateMut, product_repo.discount_columns, Changes_Dirty.
  simpl.
  repeat case_bool_decide;
    repeat match goal with
           | |- context [match ?x with Some _ => _ | None => _ end] => destruct x
           end;
    simpl;
    repeat match goal with
           | |- context [size ?m] =>
               let n := eval vm_compute in (size m) in
               change (size m) with n
           end;
    simpl; intros [= <-] || intros [=];
    repeat split; vm_compute; reflexivity.
Qed.

(** [UpdateMut] panics only on a product without base price. *)
Lemma UpdateMut_answers (p : Product) :
  is_Some (basePrice p) →
  UpdateMut p = Ok None ∨ ∃ mut, UpdateMut p = Ok (Some mut).
Proof.
  intros [price Hprice]. revert Hprice.
  destruct_product p. intros ->.
  unfold product_repo.ProductRepo_UpdateMut. simpl.
  repeat match goal with
         | |- context [if ?b then _ else _] => destruct b; simpl
         end; eauto.
Qed.

(** X18: [UpdateMut] answers [nil] exactly when none of the six tracked
    fields is marked dirty: without a mark it builds no UPDATE, and
    with one it builds an UPDATE whenever the product has a base
    price. *)
Theorem UpdateMut_nil_iff_clean (p : Product) :
  (UpdateMut p = Ok None ↔ dirty (changes p) ## tracked_fields)
  ∧ (is_Some (basePrice p) →
     UpdateMut p = Ok None ∨ ∃ mut, UpdateMut p = Ok (Some mut)).
Proof.
  split; [apply UpdateMut_nil_clean | apply UpdateMut_answers].
Qed.

(** X19: tracking and persistence agree.  On a product with a base
    price and no dirty field, as the repository loads them, a call that
    changes a tracked field is followed by an UPDATE; a call that fails
    is followed by none; and a call that changes nothing is followed by
    none either, unless it is a successful [SetBasePrice] or
    [ApplyDiscount]. *)
Theorem UpdateMut_follows_changes (map_range : gset Field → list Field)
    (m : method) (p : Product) :
  dirty (changes p) = ∅ →
  is_Some (basePrice p) →
  let p' := (invoke map_range m p).2 in
  (changed_fields p p' ≠ ∅ → ∃ mut, UpdateMut p' = Ok (Some mut))
  ∧ (is_Some (invoke map_range m p).1 → UpdateMut p' = Ok None)
  ∧ (changed_fields p p' = ∅ →
     match m with
     | SetBasePrice _ | ApplyDiscount _ _ => True
     | _ => UpdateMut p' = Ok None
     end).
Proof.
  intros Hclean Hprice p'.
  destruct (invoke_tracking map_range m p) as [Hsound Hprecise].
  fold p' in Hsound, Hprecise. rewrite Hclean in Hsound, Hprecise.
  assert (Htracked : changed_fields p p' ⊆ tracked_fields).
  { unfold changed_fields, tracked_fields. decide_cases; set_solver. }
  split; [|split].
  - intros Hchanged.
    destruct (UpdateMut_answers p') as [Hnil | Hmut];
      [|by apply UpdateMut_nil_clean in Hnil; set_solver|done].
    subst p'. revert Hprice. clear. intros [price Hprice].
    destruct m; simpl;
      unfold Product_SetName, Product_SetDescription, Product_SetCategory,
        Product_SetBasePrice, Product_Activate, Product_Deactivate, Product_ApplyDiscount,
        Product_RemoveDiscount, Product_RecordUpdate;
      destruct_product p; subst;
      repeat case_bool_decide;
      repeat match goal with
             | |- context [match ?x with Some _ => _ | None => _ end] => destruct x
             | |- context [if ?b then _ else _] => destruct b
             end; simpl; eauto.
  - intros Herr. subst p'.
    rewrite (invoke_error_keeps_receiver map_range m p Herr).
    apply UpdateMut_nil_clean. rewrite Hclean. set_solver.
  - intros Hnone. rewrite Hnone in Hprecise.
    destruct m; try done; apply UpdateMut_nil_clean; set_solver.
Qed.

(** X20: [InsertMut] writes the whole row: the INSERT is for the
    products table and carries the id, name, description, category,
    amount (over the denominator 1) and status of the product, and the
    commit timestamp as creation and update time; the discount columns
    are written when the product holds a discount, and only then.  On a
    product without base price it panics. *)
Theorem InsertMut_writes_whole_row (p : Product) :
  match basePrice p with
  | None => InsertMut p = Panic nil_dereference
  | Some price =>
      ∃ mut,
        InsertMut p = Ok mut
        ∧ product_repo.row_op mut = spanner.OpInsert
        ∧ product_repo.row_table mut = "products"
        ∧ let column name := product_repo.row_values mut !! name in
          column "product_id" = Some (product_repo.AnyString (id p))
          ∧ column "name" = Some (product_repo.AnyString (name p))
          ∧ column "description" = Some (product_repo.AnyString (description p))
          ∧ column "category" = Some (product_repo.AnyString (category p))
          ∧ column "base_price_numerator" = Some (product_repo.AnyInt64 (amount price))
          ∧ column "base_price_denominator" = Some (product_repo.AnyInt64 1)
          ∧ column "status" = Some (product_repo.AnyString (status p))
          ∧ column "created_at" = Some product_repo.AnyCommitTimestamp
          ∧ column "updated_at" = Some product_repo.AnyCommitTimestamp
          ∧ column "archived_at" = None
          ∧ column "discount_percent"
            = (λ d, product_repo.AnyRat
                      (product_repo.Rat_SetFloat64
                         (Discount_PercentageFloat64 strconv_ParseFloat d)))
              <$> discount p
          ∧ column "discount_start_date"
            = (λ d, product_repo.AnyTime (startsAt d)) <$> discount p
          ∧ column "discount_end_date"
            = (λ d, product_repo.AnyTime (endsAt d)) <$> discount p
  end.
Proof.
  destruct_product p.
  unfold product_repo.ProductRepo_InsertMut, product_repo.discount_columns. simpl.
  destruct basePrice0 as [price|]; [|done].
  eexists. split; [reflexivity|].
  destruct discount0 as [d|]; repeat split; vm_compute; reflexivity.
Qed.

End ProductRepoFacts.

Lemma UpdateMut_writes_dirty_columns_witness :
  let p := (Product_Deactivate 5
              (Product_ApplyDiscount
                 (Some {| percentage := "10"; startsAt := 0; endsAt := 100 |}) 4
                 (set_events [] laptop)).2).2 in
  ∃ mut,
    product_repo.ProductRepo_UpdateMut runtime.ParseFloat_decimal p = Ok (Some mut)
    ∧ product_repo.row_values mut !! "status" = Some (product_repo.AnyString "inactive")
    ∧ product_repo.row_values mut !! "discount_percent" = Some product_repo.AnyNil
    ∧ product_repo.row_values mut !! "name" = None.
Proof.
  intros p.
  destruct (product_repo.ProductRepo_UpdateMut runtime.ParseFloat_decimal p)
    as [[mut|]| |] eqn:Hmut; try (vm_compute in Hmut; discriminate Hmut).
  exists mut. split; [reflexivity|].
  pose proof (UpdateMut_writes_dirty_columns runtime.ParseFloat_decimal p mut Hmut) as H.
  cbv zeta in H.
  destruct H as (_ & _ & _ & _ & Hname & _ & _ & _ & _ & Hstatus & Hpercent & _).
  split; [exact Hstatus|]. split; [exact Hpercent | exact Hname].
Defined.

Lemma UpdateMut_follows_changes_witness :
  ∃ mut,
    product_repo.ProductRepo_UpdateMut runtime.ParseFloat_decimal
      (invoke runtime.range_elements (SetName "Desktop") laptop).2 = Ok (Some mut).
Proof.
  refine (proj1 (UpdateMut_follows_changes runtime.ParseFloat_decimal
                   runtime.range_elements (SetName "Desktop") laptop eq_refl _) _).
  - by eexists.
  - vm_compute. discriminate.
Defined.

(** * Properties of the row conversion *)

Section ToDomainFacts.

Variable Rat_Float64 : Q → float.
Variable fmt_Sprintf_g : float → string.
Variable strconv_ParseFloat : string → option float.

Local Abbreviation ToDomain :=
  (m_product.ToDomain Rat_Float64 fmt_Sprintf_g strconv_ParseFloat).

(** X21: a product that [ToDomain] loads carries the id, name,
    description, category and status of the row, none of them invalid,
    and the numerator of the row, which is not negative, as an amount in
    VND whatever was stored; it has no pending event and no dirty
    field, so that [UpdateMut] has nothing to write for it; and it holds
    a discount only if all three discount columns of the row are set,
    with their dates as its window.  A row that is refused is refused
    with one of six errors, and no row makes [ToDomain] panic. *)
Theorem ToDomain_loads_clean_product (r : m_product.ProductRow.ProductRow) :
  match ToDomain r with
  | Ok p =>
      (id p, name p, description p, category p, status p)
      = (m_product.ProductRow.ProductID r, m_product.ProductRow.Name r,
         m_product.ProductRow.Description r, m_product.ProductRow.Category r,
         m_product.ProductRow.Status r)
      ∧ id p ≠ "" ∧ name p ≠ ""
      ∧ (status p = ProductStatusActive ∨ status p = ProductStatusInactive)
      ∧ basePrice p
        = Some {| amount := m_product.ProductRow.BasePriceNumerator r; currency := "VND" |}
      ∧ 0 ≤ m_product.ProductRow.BasePriceNumerator r
      ∧ events p = []
      ∧ dirty (changes p) = ∅
      ∧ product_repo.ProductRepo_UpdateMut strconv_ParseFloat p = Ok None
      ∧ match discount p with
        | None => True
        | Some d =>
            is_Some (m_product.ProductRow.DiscountPercent r)
            ∧ m_product.ProductRow.DiscountStartDate r = Some (startsAt d)
            ∧ m_product.ProductRow.DiscountEndDate r = Some (endsAt d)
            ∧ startsAt d < endsAt d
        end
  | Err e =>
      e ∈ [ErrNegativeAmount; ErrDiscountInvalidPercentage; ErrDiscountInvalidPeriod;
           ErrProductIDRequired; ErrProductNameRequired; ErrInvalidStatus]
  | Panic _ => False
  end.
Proof.
  unfold m_product.ToDomain, NewMoney.
  destruct (Z.ltb_spec (m_product.ProductRow.BasePriceNumerator r) 0) as [|Hamount];
    simpl; [set_solver|].
  assert (Hend : ∀ held,
    match held with
    | None => True
    | Some d =>
        is_Some (m_product.ProductRow.DiscountPercent r)
        ∧ m_product.ProductRow.DiscountStartDate r = Some (startsAt d)
        ∧ m_product.ProductRow.DiscountEndDate r = Some (endsAt d)
        ∧ startsAt d < endsAt d
    end →
    match
      Reconstitute (m_product.ProductRow.ProductID r) (m_product.ProductRow.Name r)
        (m_product.ProductRow.Description r) (m_product.ProductRow.Category r)
        (Some {| amount := m_product.ProductRow.BasePriceNumerator r; currency := "VND" |})
        held (m_product.ProductRow.Status r)
    with
    | Ok p =>
        (id p, name p, description p, category p, status p)
        = (m_product.ProductRow.ProductID r, m_product.ProductRow.Name r,
           m_product.ProductRow.Description r, m_product.ProductRow.Category r,
           m_product.ProductRow.Status r)
        ∧ id p ≠ "" ∧ name p ≠ ""
        ∧ (status p = ProductStatusActive ∨ status p = ProductStatusInactive)
        ∧ basePrice p
          = Some {| amount := m_product.ProductRow.BasePriceNumerator r;
                    currency := "VND" |}
        ∧ 0 ≤ m_product.ProductRow.BasePriceNumerator r
        ∧ events p = []
        ∧ dirty (changes p) = ∅
        ∧ product_repo.ProductRepo_UpdateMut strconv_ParseFloat p = Ok None
        ∧ match discount p with
          | None => True
          | Some d =>
              is_Some (m_product.ProductRow.DiscountPercent r)
              ∧ m_product.ProductRow.DiscountStartDate r = Some (startsAt d)
              ∧ m_product.ProductRow.DiscountEndDate r = Some (endsAt d)
              ∧ startsAt d < endsAt d
          end
    | Err e =>
        e ∈ [ErrNegativeAmount; ErrDiscountInvalidPercentage; ErrDiscountInvalidPeriod;
             ErrProductIDRequired; ErrProductNameRequired; ErrInvalidStatus]
    | Panic _ => False
    end).
  { intros held Hheld. unfold Reconstitute.
    case_bool_decide as Hid; [set_solver|].
    case_bool_decide as Hname; [set_solver|].
    destruct (bool_decide _ && bool_decide _) eqn:Hstatus; [set_solver|].
    apply andb_false_iff in Hstatus.
    simpl. repeat split; try done.
    destruct Hstatus as [H|H]; apply bool_decide_eq_false in H;
      [left | right]; by apply dec_stable. }
  destruct (m_product.ProductRow.DiscountPercent r) as [numeric|] eqn:Hpercent;
    [|by apply (Hend None)].
  destruct (m_product.ProductRow.DiscountStartDate r) as [startDate|] eqn:Hstart;
    [|by apply (Hend None)].
  destruct (m_product.ProductRow.DiscountEndDate r) as [endDate|] eqn:Hstop;
    [|by apply (Hend None)].
  destruct (NewDiscount strconv_ParseFloat _ startDate endDate) as [d|e|] eqn:Hnew; simpl.
  - apply NewDiscount_accepted in Hnew as (-> & Hperiod & _).
    apply (Hend (Some _)). simpl. rewrite ?Hpercent, ?Hstart, ?Hstop. eauto.
  - revert Hnew. unfold NewDiscount.
    destruct (strconv_ParseFloat _); [|intros [= <-]; set_solver].
    destruct (_ || _); [intros [= <-]; set_solver|].
    destruct (negb _); [intros [= <-]; set_solver | done].
  - revert Hnew. unfold NewDiscount.
    destruct (strconv_ParseFloat _); [|done].
    destruct (_ || _); [done|]. by destruct (negb _).
Qed.

End ToDomainFacts.

(** * Properties of the transports *)

(** Wrapping an error leaves the sentinels it is unchanged. *)
Lemma errors_Is_wrapped (text : string) (err target : error) :
  (∀ text' err', target ≠ fmt_Errorf_w text' err') →
  errors_Is (fmt_Errorf_w text err) target = errors_Is err target.
Proof.
  intros Htarget. simpl. by rewrite bool_decide_eq_false_2 by (intros <-; by eapply Htarget).
Qed.

(** X22: the two transports classify every error alike: an error is
    404 over REST exactly when it is NotFound over gRPC, 500 exactly
    when it is Internal, and 422 exactly when it is InvalidArgument or
    FailedPrecondition; there is no other status or code. *)
Theorem transports_classify_alike (err : error) :
  (rest.domainErrToStatus err = 404 ↔ grpctransport.domainErrToCode err = 5)
  ∧ (rest.domainErrToStatus err = 500 ↔ grpctransport.domainErrToCode err = 13)
  ∧ (rest.domainErrToStatus err = 422
     ↔ grpctransport.domainErrToCode err = 3 ∨ grpctransport.domainErrToCode err = 9)
  ∧ rest.domainErrToStatus err ∈ [404; 422; 500].
Proof.
  unfold rest.domainErrToStatus, grpctransport.domainErrToCode.
  destruct (errors_Is err ErrProductNotFound), (errors_Is err ErrProductNotActive),
    (errors_Is err ErrProductNameRequired), (errors_Is err ErrProductBasePriceRequired),
    (errors_Is err ErrDiscountInvalidPercentage), (errors_Is err ErrDiscountInvalidPeriod),
    (errors_Is err ErrNoActiveDiscount), (errors_Is err ErrInvalidDiscountPeriod);
    vm_compute; (repeat split; try (intros; discriminate); try tauto;
                 try (intros [?|?]; discriminate); set_solver).
Qed.

(** X23: an error wrapped with [%w], however many times, has the status
    and the code of the error it wraps; only the message changes. *)
Theorem wrapping_keeps_classification (text : string) (err : error) :
  rest.domainErrToStatus (fmt_Errorf_w text err) = rest.domainErrToStatus err
  ∧ grpctransport.domainErrToCode (fmt_Errorf_w text err)
    = grpctransport.domainErrToCode err.
Proof.
  unfold rest.domainErrToStatus, grpctransport.domainErrToCode.
  by rewrite !errors_Is_wrapped by done.
Qed.

(** X24: the errors of the business methods are the caller's: an error
    a method returns is 422 over REST, and over gRPC it is
    FailedPrecondition when the product is not active and
    InvalidArgument otherwise; the one exception is the error for an
    absent discount argument, which is 500 and Internal. *)
Theorem method_errors_classified (map_range : gset Field → list Field)
    (m : method) (p : Product) (err : error) :
  (invoke map_range m p).1 = Some err →
  if bool_decide (err = errors_New "discount must not be nil")
  then rest.domainErrToStatus err = 500 ∧ grpctransport.domainErrToCode err = 13
  else rest.domainErrToStatus err = 422
       ∧ grpctransport.domainErrToCode err
         = if bool_decide (err = ErrProductNotActive) then 9 else 3.
Proof.
  intros Herr.
  pose proof (invoke_error_cases map_range m p err Herr) as Hwhich.
  destruct m; try done.
  - by destruct Hwhich as [_ ->].
  - by destruct Hwhich as [_ ->].
  - by destruct Hwhich as [[_ ->] | [(_ & _ & ->) | (_ & _ & ->)]].
  - by destruct Hwhich as [_ ->].
Qed.

Lemma method_errors_classified_witness :
  rest.domainErrToStatus ErrNoActiveDiscount = 422
  ∧ grpctransport.domainErrToCode ErrNoActiveDiscount = 3.
Proof.
  exact (method_errors_classified runtime.range_elements (RemoveDiscount 5) laptop
           ErrNoActiveDiscount eq_refl).
Defined.

Section GrpcUpdateFacts.

Variable W : Type.
Variable map_range : gset Field → list Field.

(** [RecordUpdate] touches the queue of events only. *)
Lemma RecordUpdate_fields (now : time.Time) (p : Product) :
  let p' := Product_RecordUpdate map_range now p in
  (id p', name p', description p', category p', basePrice p', discount p', status p',
   changes p')
  = (id p, name p, description p, category p, basePrice p, discount p, status p,
     changes p).
Proof. unfold Product_RecordUpdate. by destruct (Nat.eqb _ 0). Qed.

(** X25: an update over gRPC sets the fields given and keeps the
    others: once the product is loaded the use case cannot fail before
    the commit, and in the aggregate it commits the name, the
    description and the category are those of the message where they
    are not empty and those of the product loaded where they are: over
    gRPC a description or category cannot be emptied, and the
    name-required error cannot arise. *)
Theorem grpc_update_sets_nonempty_fields
    (it : updateproduct.UpdateProductInteractor W)
    (Id Name Description Category : string) (w w1 : W) (loaded : Product) :
  contract.GetByID (updateproduct.repo it) Id w = (Ok loaded, w1) →
  ∃ product plan w',
    updateproduct.Execute_plan W map_range it
      (grpctransport.UpdateProduct_request Id Name Description Category) w
    = (Ok (product, plan), w')
    ∧ name product = (if bool_decide (Name ≠ "") then Name else name loaded)
    ∧ description product
      = (if bool_decide (Description ≠ "") then Description else description loaded)
    ∧ category product
      = (if bool_decide (Category ≠ "") then Category else category loaded)
    ∧ (id product, basePrice product, discount product, status product)
      = (id loaded, basePrice loaded, discount loaded, status loaded).
Proof.
  intros Hload. unfold updateproduct.Execute_plan, grpctransport.UpdateProduct_request.
  simpl. rewrite Hload.
  set (named := match (if bool_decide (Name ≠ "") then Some Name else None) with
                | Some name => Product_SetName name loaded
                | None => (None, loaded)
                end).
  assert (Hnamed : named.1 = None
                   ∧ name named.2 = (if bool_decide (Name ≠ "") then Name else name loaded)
                   ∧ (id named.2, description named.2, category named.2,
                      basePrice named.2, discount named.2, status named.2)
                     = (id loaded, description loaded, category loaded, basePrice loaded,
                        discount loaded, status loaded)).
  { subst named. case_bool_decide as HName; [|done].
    unfold Product_SetName. rewrite bool_decide_eq_false_2 by done.
    case_bool_decide; [by subst|]. by destruct loaded. }
  destruct named as [err named]. simpl in Hnamed.
  destruct Hnamed as (-> & Hname & [= Hid Hdescription Hcategory Hprice Hdiscount Hstatus]).
  destruct (common.Now _ w1) as [now w2].
  set (described := match (if bool_decide (Description ≠ "") then Some Description else None)
                    with
                    | Some description => Product_SetDescription description named
                    | None => named
                    end).
  set (final := match (if bool_decide (Category ≠ "") then Some Category else None) with
                | Some category => Product_SetCategory category described
                | None => described
                end).
  pose proof (RecordUpdate_fields now final) as Hrecord. cbv zeta in Hrecord.
  destruct (contract.UpdateMut _ _ w2) as [mut w3].
  destruct (updateproduct.add_event_muts _ _ _ _ _) as [plan w4].
  eexists _, _, _. split; [reflexivity|].
  injection Hrecord as -> -> -> -> -> -> -> _.
  assert (Hdescribed :
            (id described, name described, category described, basePrice described,
             discount described, status described)
            = (id named, name named, category named, basePrice named, discount named,
               status named)
            ∧ description described
              = if bool_decide (Description ≠ "") then Description else description named).
  { subst described. case (bool_decide_reflect (Description ≠ "")); intros _; simpl;
      [|by split].
    unfold Product_SetDescription.
    case (bool_decide_reflect (description named = Description)); [by intros <-|].
    by destruct named. }
  destruct Hdescribed as [[= Hid' Hname' Hcategory' Hprice' Hdiscount' Hstatus'] Hdescription'].
  assert (Hfinal :
            (id final, name final, description final, basePrice final, discount final,
             status final)
            = (id described, name described, description described, basePrice described,
               discount described, status described)
            ∧ category final
              = if bool_decide (Category ≠ "") then Category else category described).
  { subst final. case (bool_decide_reflect (Category ≠ "")); intros _; simpl;
      [|by split].
    unfold Product_SetCategory.
    case (bool_decide_reflect (category described = Category)); [by intros <-|].
    by destruct described. }
  destruct Hfinal as [[= -> -> -> -> -> ->] ->].
  rewrite Hdescription', Hname', Hcategory', Hid', Hprice', Hdiscount', Hstatus'.
  rewrite Hname, Hdescription, Hcategory, Hid, Hprice, Hdiscount, Hstatus. done.
Qed.

End GrpcUpdateFacts.

Lemma grpc_update_sets_nonempty_fields_witness :
  ∃ product plan w',
    updateproduct.Execute_plan _ runtime.range_elements integration_test.interactor
      (grpctransport.UpdateProduct_request "p-1" "Desktop" "" "") initial_world
    = (Ok (product, plan), w')
    ∧ name product = "Desktop"
    ∧ description product = "a product".
Proof.
  destruct (grpc_update_sets_nonempty_fields _ runtime.range_elements
              integration_test.interactor "p-1" "Desktop" "" "" initial_world
              initial_world stored_product eq_refl)
    as (product & plan & w' & Hrun & Hname & Hdescription & _).
  exists product, plan, w'. split; [exact Hrun|]. split; [exact Hname | exact Hdescription].
Defined.

(** * Properties of the queries *)

Section QueryFacts.

Variable W : Type.
Variable strconv_ParseFloat : string → option float.
Variable int64_unrepresentable : float → Z.

Local Abbreviation EffectivePrice :=
  (services.EffectivePrice strconv_ParseFloat int64_unrepresentable).
Local Abbreviation GetProduct :=
  (getproduct.Execute W strconv_ParseFloat int64_unrepresentable).
Local Abbreviation ListProducts :=
  (listproducts.Execute W strconv_ParseFloat int64_unrepresentable).
Local Abbreviation summaries :=
  (listproducts.summaries strconv_ParseFloat int64_unrepresentable).

Local Arguments services.EffectivePrice : simpl never.

(** X26: what the product query answers for a product the repository
    has loaded, at the time the clock gives.  It fails exactly when the
    pricing fails, with the error of the pricing, which for a product
    without base price is the base-price-required error; it never
    panics.  Otherwise the answer copies the fields of the product, its
    effective price is the result of the pricing, in the currency of the
    base price and equal to the base price unless the discount is valid
    now, and it carries the discount whenever the product holds one,
    flagged active when valid now. *)
Theorem GetProduct_answer (q : getproduct.GetProductQuery W)
    (req : getproduct.GetProductRequest) (w w1 w2 : W) (product : Product)
    (now : time.Time) :
  contract_query.GetByID (getproduct.queryRepo q) (getproduct.ProductID req) w
  = (Ok product, w1) →
  common.Now (getproduct.ticker q) w1 = (now, w2) →
  match EffectivePrice (basePrice product) (discount product) now with
  | Ok effective =>
      ∃ base dto,
        basePrice product = Some base
        ∧ GetProduct q req w = (Ok dto, w2)
        ∧ (getproduct.ID dto, getproduct.Name dto, getproduct.Description dto,
           getproduct.Category dto, getproduct.Status dto)
          = (id product, name product, description product, category product,
             status product)
        ∧ getproduct.BasePrice dto
          = {| getproduct.Amount := amount base; getproduct.Currency := currency base |}
        ∧ getproduct.EffectivePrice dto
          = {| getproduct.Amount := amount effective;
               getproduct.Currency := currency base |}
        ∧ (services.IsDiscounted (discount product) now = false →
           getproduct.EffectivePrice dto = getproduct.BasePrice dto)
        ∧ getproduct.Discount dto
          = (λ d, {| getproduct.Percentage := percentage d;
                     getproduct.StartsAt := startsAt d;
                     getproduct.EndsAt := endsAt d;
                     getproduct.IsActive := Discount_IsValidAt d now |})
            <$> discount product
  | Err err =>
      GetProduct q req w = (Err err, w2)
      ∧ (basePrice product = None → err = ErrProductBasePriceRequired)
  | Panic _ => False
  end.
Proof.
  intros Hload Hnow. unfold getproduct.Execute. rewrite Hload, Hnow.
  destruct (EffectivePrice (basePrice product) (discount product) now)
    as [effective|err|text] eqn:Hprice.
  - destruct (basePrice product) as [base|] eqn:Hbase; [|done].
    pose proof (EffectivePrice_currency _ _ _ _ _ _ Hprice) as Hcur.
    eexists _, _. split; [reflexivity|]. split; [reflexivity|]. simpl.
    rewrite Hcur. repeat split.
    intros Hnot.
    rewrite (EffectivePrice_without_valid_discount _ _ _ _ _ Hnot) in Hprice.
    by injection Hprice as <-.
  - split; [done|]. intros Hbase. rewrite Hbase in Hprice. by injection Hprice as <-.
  - revert Hprice. unfold services.EffectivePrice, Money_ApplyPercentageDiscount.
    destruct (basePrice product); [|done].
    destruct (discount product) as [d|]; [|done].
    destruct (negb _); [done|].
    destruct (strconv_ParseFloat _); [|done]. by destruct (_ || _).
Qed.

(** The loop of the listing, on products that all have a price. *)
Lemma summaries_answer (now : time.Time) (products : list Product)
    (items : list listproducts.ProductSummaryDTO) :
  match summaries now products items with
  | Ok all =>
      ∃ added,
        all = (items ++ added)%list
        ∧ listproducts.ID <$> added = id <$> products
        ∧ Forall2 (λ p item,
                     ∃ base effective,
                       basePrice p = Some base
                       ∧ EffectivePrice (basePrice p) (discount p) now = Ok effective
                       ∧ listproducts.BasePrice item
                         = {| listproducts.Amount := amount base;
                              listproducts.Currency := currency base |}
                       ∧ listproducts.EffectivePrice item
                         = {| listproducts.Amount := amount effective;
                              listproducts.Currency := currency base |}
                       ∧ listproducts.IsDiscounted item
                         = services.IsDiscounted (discount p) now
                       ∧ (listproducts.IsDiscounted item = true
                          ↔ is_Some (listproducts.DiscountEndsAt item)))
                  products added
  | Err err =>
      ∃ p, p ∈ products ∧ EffectivePrice (basePrice p) (discount p) now = Err err
  | Panic _ => False
  end.
Proof.
  revert items. induction products as [|p products IH]; intros items; simpl.
  - exists []. rewrite app_nil_r. repeat split. constructor.
  - destruct (EffectivePrice (basePrice p) (discount p) now) as [effective|err|text]
      eqn:Hprice.
    + destruct (basePrice p) as [base|] eqn:Hbase; [|done].
      pose proof (EffectivePrice_currency _ _ _ _ _ _ Hprice) as Hcur.
      match goal with |- context [summaries now products (items ++ [?s])%list] =>
        set (summary := s) end.
      specialize (IH (items ++ [summary])%list).
      destruct (summaries now products (items ++ [summary])%list) as [all|err|text];
        [|by destruct IH as (p' & Hin & Herr); exists p'; split; [right|] | done].
      destruct IH as (added & -> & Hids & Hall).
      exists (summary :: added). split; [by rewrite <- app_assoc|].
      split; [by rewrite !fmap_cons, Hids|].
      constructor; [|done].
      exists base, effective. subst summary. simpl. rewrite Hcur, Hbase.
      split; [done|]. split; [done|]. split; [done|]. split; [done|]. split; [done|].
      unfold services.IsDiscounted. destruct (discount p) as [d|]; simpl.
      * destruct (Discount_IsValidAt d now); split; try done;
          try (by eexists); by intros [? [=]].
      * split; [done | by intros [? [=]]].
    + exists p. split; [left | done].
    + revert Hprice. unfold services.EffectivePrice, Money_ApplyPercentageDiscount.
      destruct (basePrice p); [|done].
      destruct (discount p) as [d|]; [|done].
      destruct (negb _); [done|].
      destruct (strconv_ParseFloat _); [|done]. by destruct (_ || _).
Qed.

(** X27: what the listing answers for the products the repository
    lists.  It fails exactly when the pricing of one of them fails, with
    that error, and never panics.  Otherwise it has one summary per
    product, in the order listed, the total count is their number, each
    summary has the prices of its product in the currency of the base
    price, and a summary is flagged discounted exactly when it carries
    the end of a discount, which is when the discount is valid now. *)
Theorem ListProducts_answer (q : listproducts.ListProductsQuery W)
    (req : listproducts.ListProductsRequest) (w w1 w2 : W) (products : list Product)
    (now : time.Time) :
  contract_query.ListActive (listproducts.queryRepo q)
    {| contract_query.Category := listproducts.req_Category req |}
    {| contract_query.Limit :=
         if listproducts.Limit req <=? 0 then 20 else listproducts.Limit req;
       contract_query.Offset := listproducts.Offset req |} w
  = (Ok products, w1) →
  common.Now (listproducts.ticker q) w1 = (now, w2) →
  match ListProducts q req w with
  | (Ok resp, w') =>
      w' = w2
      ∧ listproducts.ID <$> listproducts.Items resp = id <$> products
      ∧ listproducts.TotalCount resp = Z.of_nat (length products)
      ∧ Forall2 (λ p item,
                   ∃ base effective,
                     basePrice p = Some base
                     ∧ EffectivePrice (basePrice p) (discount p) now = Ok effective
                     ∧ listproducts.BasePrice item
                       = {| listproducts.Amount := amount base;
                            listproducts.Currency := currency base |}
                     ∧ listproducts.EffectivePrice item
                       = {| listproducts.Amount := amount effective;
                            listproducts.Currency := currency base |}
                     ∧ listproducts.IsDiscounted item
                       = services.IsDiscounted (discount p) now
                     ∧ (listproducts.IsDiscounted item = true
                        ↔ is_Some (listproducts.DiscountEndsAt item)))
                products (listproducts.Items resp)
  | (Err err, w') =>
      w' = w2
      ∧ ∃ p, p ∈ products ∧ EffectivePrice (basePrice p) (discount p) now = Err err
  | (Panic _, _) => False
  end.
Proof.
  intros Hlist Hnow. unfold listproducts.Execute, listproducts.defaultLimit.
  rewrite Hlist, Hnow.
  pose proof (summaries_answer now products []) as Hloop.
  destruct (summaries now products []) as [all|err|text]; [| done | done].
  destruct Hloop as (added & -> & Hids & Hall). simpl.
  split; [done|]. split; [done|]. split; [|done].
  f_equal. apply (f_equal length) in Hids. by rewrite !length_fmap in Hids.
Qed.

End QueryFacts.

Lemma GetProduct_answer_witness :
  ∃ dto,
    getproduct.Execute _ runtime.ParseFloat_decimal runtime.int64_indefinite product_query
      {| getproduct.ProductID := "p-1" |} initial_world = (Ok dto, initial_world)
    ∧ getproduct.EffectivePrice dto = getproduct.BasePrice dto.
Proof.
  pose proof (GetProduct_answer _ runtime.ParseFloat_decimal runtime.int64_indefinite
                product_query {| getproduct.ProductID := "p-1" |} initial_world
                initial_world initial_world stored_product 7
                ltac:(vm_compute; reflexivity) eq_refl) as H.
  assert (Hprice :
            services.EffectivePrice runtime.ParseFloat_decimal runtime.int64_indefinite
              (basePrice stored_product) (discount stored_product) 7
            = Ok {| amount := 100; currency := "VND" |}) by reflexivity.
  rewrite Hprice in H. destruct H as (base & dto & _ & Hrun & _ & _ & _ & Hsame & _).
  exists dto. split; [exact Hrun | exact (Hsame eq_refl)].
Defined.

Lemma ListProducts_answer_witness :
  ∃ resp,
    listproducts.Execute _ runtime.ParseFloat_decimal runtime.int64_indefinite
      listing_query
      {| listproducts.req_Category := None; listproducts.Limit := 0;
         listproducts.Offset := 0 |} initial_world
    = (Ok resp, initial_world)
    ∧ listproducts.ID <$> listproducts.Items resp = ["p-1"]
    ∧ listproducts.TotalCount resp = 1.
Proof.
  pose proof (ListProducts_answer _ runtime.ParseFloat_decimal runtime.int64_indefinite
                listing_query
                {| listproducts.req_Category := None; listproducts.Limit := 0;
                   listproducts.Offset := 0 |}
                initial_world initial_world initial_world [stored_product] 7
                ltac:(vm_compute; reflexivity) eq_refl) as H.
  destruct (listproducts.Execute _ _ _ _ _ _) as [[resp|err|text] w'];
    [| | done].
  - destruct H as (-> & Hids & Htotal & _). by exists resp.
  - destruct H as (_ & p & Hin & Hfail). exfalso.
    apply list_elem_of_singleton in Hin as ->. vm_compute in Hfail. discriminate Hfail.
Defined.

(** * Properties of the apply-discount use case *)

Section ApplyDiscountFacts.

Variable W : Type.
Variable strconv_ParseFloat : string → option float.

Local Abbreviation Execute_plan := (applydiscount.Execute_plan W strconv_ParseFloat).
Local Abbreviation Execute := (applydiscount.Execute W strconv_ParseFloat).

(** X28: what the apply-discount use case accepts.  A discount that
    [NewDiscount] refuses is refused before the clock is read.  One it
    accepts is refused with the product-not-active error on a product
    that is not Active, and otherwise with the invalid-period error
    unless the current time lies in its window: a discount that has not
    started yet, or is already over, cannot be applied.  In each of
    these cases no descriptor is asked of a repository and nothing is
    submitted.  In the remaining case the aggregate for which the plan
    is built holds the discount and has one more pending event, the
    DiscountApplied event of this discount. *)
Theorem ApplyDiscount_use_case (it : applydiscount.ApplyDiscountInteractor W)
    (req : applydiscount.ApplyDiscountRequest) (w w1 w2 : W) (loaded : Product)
    (now : time.Time) :
  contract.GetByID (applydiscount.repo it) (applydiscount.ProductID req) w
  = (Ok loaded, w1) →
  common.Now (applydiscount.ticker it) w1 = (now, w2) →
  match NewDiscount strconv_ParseFloat (applydiscount.Percentage req)
          (applydiscount.StartsAt req) (applydiscount.EndsAt req) with
  | Err err => Execute it req w = (Err err, w1)
  | Panic _ => False
  | Ok d =>
      if bool_decide (status loaded ≠ ProductStatusActive)
      then Execute it req w = (Err ErrProductNotActive, w2)
      else if (applydiscount.StartsAt req <=? now) && (now <? applydiscount.EndsAt req)
      then ∃ product plan w3,
             Execute_plan it req w = (Ok (product, plan), w3)
             ∧ discount product = Some d
             ∧ events product
               = (events loaded
                  ++ [DiscountAppliedEvent (id loaded) (applydiscount.Percentage req)
                        (applydiscount.StartsAt req) (applydiscount.EndsAt req) now])%list
             ∧ FieldDiscount ∈ dirty (changes product)
      else Execute it req w = (Err ErrInvalidDiscountPeriod, w2)
  end.
Proof.
  intros Hload Hnow.
  unfold applydiscount.Execute, applydiscount.Execute_plan. rewrite Hload.
  destruct (NewDiscount strconv_ParseFloat _ _ _) as [d|err|text] eqn:Hnew; [|done|].
  - apply NewDiscount_accepted in Hnew as (-> & _ & _).
    rewrite Hnow. unfold Product_ApplyDiscount.
    case (bool_decide_reflect (status loaded ≠ ProductStatusActive)); intros Hstatus;
      [done|].
    unfold Discount_IsValidAt, time.Before. simpl.
    replace (negb (now <? applydiscount.StartsAt req))
      with (applydiscount.StartsAt req <=? now) by (rewrite Z.leb_antisym; done).
    destruct (_ && _); simpl; [|done].
    destruct_product loaded. unfold_assignments.
    destruct (contract.UpdateMut _ _ w2) as [mut w3].
    destruct (applydiscount.add_event_muts _ _ _ _ _) as [plan w4].
    eexists _, _, _. split; [reflexivity|]. simpl. repeat split. set_solver.
  - revert Hnew. unfold NewDiscount.
    destruct (strconv_ParseFloat _); [|done].
    destruct (_ || _); [done|]. by destruct (negb _).
Qed.

End ApplyDiscountFacts.

Lemma ApplyDiscount_use_case_witness :
  ∃ product plan w3,
    applydiscount.Execute_plan _ runtime.ParseFloat_decimal discount_interactor
      {| applydiscount.ProductID := "p-1"; applydiscount.Percentage := "10";
         applydiscount.StartsAt := 0; applydiscount.EndsAt := 30 |} initial_world
    = (Ok (product, plan), w3)
    ∧ discount product = Some {| percentage := "10"; startsAt := 0; endsAt := 30 |}
    ∧ events product = [DiscountAppliedEvent "p-1" "10" 0 30 7].
Proof.
  pose proof (ApplyDiscount_use_case _ runtime.ParseFloat_decimal discount_interactor
                {| applydiscount.ProductID := "p-1"; applydiscount.Percentage := "10";
                   applydiscount.StartsAt := 0; applydiscount.EndsAt := 30 |}
                initial_world initial_world initial_world stored_product 7
                ltac:(vm_compute; reflexivity) eq_refl) as H.
  assert (Hnew :
            NewDiscount runtime.ParseFloat_decimal
              (applydiscount.Percentage
                 {| applydiscount.ProductID := "p-1"; applydiscount.Percentage := "10";
                    applydiscount.StartsAt := 0; applydiscount.EndsAt := 30 |})
              (applydiscount.StartsAt
                 {| applydiscount.ProductID := "p-1"; applydiscount.Percentage := "10";
                    applydiscount.StartsAt := 0; applydiscount.EndsAt := 30 |})
              (applydiscount.EndsAt
                 {| applydiscount.ProductID := "p-1"; applydiscount.Percentage := "10";
                    applydiscount.StartsAt := 0; applydiscount.EndsAt := 30 |})
            = Ok {| percentage := "10"; startsAt := 0; endsAt := 30 |})
    by reflexivity.
  rewrite Hnew in H.
  case (bool_decide_reflect (status stored_product ≠ ProductStatusActive)) in H;
    [by exfalso|].
  destruct H as (product & plan & w3 & Hrun & Hheld & Hevents & _).
  by exists product, plan, w3.
Defined.

(** * Properties of the outbox rows of a commit *)

Section OutboxFacts.

Variable W : Type.
Variable json_Marshal : repo.payload_struct → result string.
Variable time_Format_RFC3339 : time.Time → string.
Variable uuid_NewString : W → string * W.

(** X29: the loop over the pending events, run with the event
    repository of the package.  When [json.Marshal] serialises every
    payload, each event of the six types of the package adds one row to
    the plan, after what the plan held and in the order of the events:
    an INSERT into the outbox table with the name of the event as event
    type, the product id of the event as aggregate id, the pending
    status, and the commit timestamp as creation time. *)
Theorem events_become_outbox_rows (it : updateproduct.UpdateProductInteractor W)
    (events : list DomainEvent) (plan : commitplanner.Plan) (w : W) :
  updateproduct.eventRepo it
  = repo.NewEventRepo W json_Marshal time_Format_RFC3339 uuid_NewString →
  (∀ data, ∃ text, json_Marshal data = Ok text) →
  Forall (λ event, is_product_event event = true) events →
  ∃ rows,
    commitplanner.muts (updateproduct.add_event_muts W it events plan w).1
    = (commitplanner.muts plan ++ rows)%list
    ∧ Forall2 (λ event row,
                 spanner.op row = spanner.OpInsert
                 ∧ spanner.table row = "outbox_events"
                 ∧ spanner.values row !! "event_type"
                   = Some (spanner.Text (EventName event))
                 ∧ spanner.values row !! "aggregate_id"
                   = Some (spanner.Text (repo.aggregateIDOf event))
                 ∧ spanner.values row !! "status" = Some (spanner.Text "pending")
                 ∧ spanner.values row !! "created_at" = Some spanner.CommitTimestamp)
              events rows.
Proof.
  intros Hrepo Hmarshal. unfold updateproduct.add_event_muts. rewrite Hrepo. simpl.
  revert plan w. induction events as [|event events IH]; intros plan w Hevents; simpl.
  - exists []. by rewrite app_nil_r.
  - apply Forall_cons in Hevents as [Hevent Hevents].
    unfold repo.EventRepo_InsertMut at 2.
    destruct (marshalPayload_product_event json_Marshal time_Format_RFC3339 event Hevent)
      as [data ->].
    destruct (Hmarshal data) as [text ->].
    destruct (uuid_NewString w) as [event_id w1].
    match goal with |- context [commitplanner.Plan_Add ?m plan] => set (row := m) end.
    destruct (IH (commitplanner.Plan_Add row plan) w1 Hevents) as (rows & -> & Hrows).
    exists (row :: rows). split; [simpl; by rewrite <- app_assoc|].
    constructor; [|done]. subst row. simpl.
    unfold m_outbox.EventID, m_outbox.EventType, m_outbox.AggregateID, m_outbox.Payload,
      m_outbox.Status, m_outbox.CreatedAt.
    repeat split; by simplify_map_eq.
Qed.

End OutboxFacts.

Lemma events_become_outbox_rows_witness :
  ∃ row,
    commitplanner.muts
      (updateproduct.add_event_muts _ outbox_interactor [ProductActivatedEvent "p-1" 7]
         commitplanner.NewPlan initial_world).1
    = [row]
    ∧ spanner.values row !! "event_type" = Some (spanner.Text "product.activated").
Proof.
  destruct (events_become_outbox_rows _ (λ _, Ok "{}") (λ _, "1970-01-01T00:00:07Z")
              (λ w, ("e-1", w)) outbox_interactor [ProductActivatedEvent "p-1" 7]
              commitplanner.NewPlan initial_world eq_refl
              ltac:(by intros data; eexists)
              ltac:(by repeat constructor))
    as (rows & Hplan & Hrows).
  apply Forall2_cons_inv_l in Hrows as (row & rest & Hrow & Hrest & ->).
  apply Forall2_nil_inv_l in Hrest as ->.
  exists row. split; [exact Hplan|]. by destruct Hrow as (_ & _ & Hname & _).
Defined.
